(** * SimpleESN: a shallow embedding of [simple_esn/simple_esn.py]

    The echo state network of the Python module is embedded as functions
    over an explicit object state.  Floating-point arithmetic, the random
    generator and the eigenvalue routine are collaborators of the module
    (numpy, scipy): they are interfaces here, so every theorem holds for
    each implementation of them, and a reference instance on IEEE binary64
    numbers is provided to run the methods on concrete inputs. *)

From Stdlib Require Import ZArith Lia PrimFloat Uint63.
From stdpp Require Import base tactics option list list_numbers.

Local Open Scope Z_scope.

(** ** Exceptions and results *)

(** The exceptions the methods can raise, named after the Python class and
    the library call that raises it. *)
Inductive exn : Type :=
  | ValueError_check_array          (* sklearn.utils.check_array rejects x *)
  | ValueError_seed                 (* RandomState(seed), seed outside 0 .. 2^32-1 *)
  | ValueError_negative_dimensions  (* RandomState.rand with a negative dimension *)
  | ValueError_expected_square      (* scipy.linalg.eig on a non-square matrix *)
  | ValueError_zero_size_reduction  (* np.max over an empty array *)
  | ValueError_shapes_not_aligned   (* ndarray.dot on mismatched inner dimensions *)
  | ValueError_broadcast            (* operands or assignment cannot be broadcast *)
  | IndexError                      (* index out of bounds *)
  | AttributeError.                 (* method called on [None] *)

Inductive result (A : Type) : Type :=
  | Ok (a : A)
  | Raise (e : exn).
Arguments Ok {A} a.
Arguments Raise {A} e.

#[global] Instance result_ret : MRet result := fun A a => Ok a.
#[global] Instance result_bind : MBind result := fun A B f m =>
  match m with
  | Ok a => f a
  | Raise e => Raise e
  end.

Definition is_ok {A} (r : result A) : bool :=
  match r with Ok _ => true | Raise _ => false end.

(** ** Collaborators *)

(** numpy's float64 scalars: the constants and operations the module uses.
    Every operation is total: numpy signals a division by zero or an
    invalid operation by a warning and an [inf] or [nan] value, never by an
    exception. *)
Class Float64 : Type := {
  scalar : Type;
  f0 : scalar;                          (* 0.0 *)
  f1 : scalar;                          (* 1.0 *)
  f0_5 : scalar;                        (* the literal 0.5 *)
  f0_9 : scalar;                        (* the literal 0.9 *)
  fadd : scalar -> scalar -> scalar;
  fsub : scalar -> scalar -> scalar;
  fmul : scalar -> scalar -> scalar;
  fdiv : scalar -> scalar -> scalar;
  ftanh : scalar -> scalar;             (* np.tanh on one element *)
  fisfinite : scalar -> bool            (* np.isfinite on one element *)
}.

(** numpy.random.RandomState and scipy.linalg.eig.  [shuffle] is the
    generator's [permutation] on a one-dimensional integer array; its law
    is the one property of it the module relies on. *)
Class Collaborators `{Float64} : Type := {
  rng : Type;
  global_rng : rng;                     (* np.random.mtrand._rand *)
  seeded : Z -> rng;                    (* RandomState(seed) *)
  random_sample : rng -> rng * scalar;  (* one uniform draw from [0, 1) *)
  shuffle : rng -> list Z -> rng * list Z;
  shuffle_Permutation : forall g l, (shuffle g l).2 ≡ₚ l;
  eig_max_abs : list (list scalar) -> scalar
    (* np.max(np.abs(la.eig(a)[0])) on a non-empty square matrix *)
}.

(** [map] on lists, with stdpp's lemmas on [fmap]. *)
Abbreviation lmap := (fmap (M := list)) (only parsing).

Section Numpy.
Context `{Float64}.

(** ** Two-dimensional arrays *)

(** A numpy array of two dimensions: its shape and its rows.  The shape is
    kept apart from the rows because an array with no row still has a
    number of columns. *)
Record ndarray : Type := NDArray {
  nrows : nat;
  ncols : nat;
  data : list (list scalar)
}.

Definition shape (a : ndarray) : nat * nat := (nrows a, ncols a).

Definition wf (a : ndarray) : Prop :=
  length (data a) = nrows a /\ Forall (fun r => length r = ncols a) (data a).

Definition wfb (a : ndarray) : bool :=
  Nat.eqb (length (data a)) (nrows a)
  && forallb (fun r => Nat.eqb (length r) (ncols a)) (data a).

(** [np.zeros(shape=(r, c))] and [np.ones(shape=(r, c))]. *)
Definition zeros (r c : nat) : ndarray :=
  NDArray r c (replicate r (replicate c f0)).
Definition ones (r c : nat) : ndarray :=
  NDArray r c (replicate r (replicate c f1)).

(** Element-wise operations with a scalar operand: [a - s], [s * a]
    (also [a *= s]) and [np.tanh(a)]. *)
Definition map_array (f : scalar -> scalar) (a : ndarray) : ndarray :=
  NDArray (nrows a) (ncols a) (lmap (lmap f) (data a)).
Definition sub_scalar (a : ndarray) (s : scalar) : ndarray :=
  map_array (fun v => fsub v s) a.
Definition imul_scalar (a : ndarray) (s : scalar) : ndarray :=
  map_array (fun v => fmul v s) a.
Definition scalar_mul (s : scalar) (a : ndarray) : ndarray :=
  map_array (fmul s) a.
Definition tanh (a : ndarray) : ndarray := map_array ftanh a.

(** Column [j] of an array, as a one-dimensional sequence. *)
Definition column (a : ndarray) (j : nat) : list scalar :=
  lmap (fun r => default f0 (r !! j)) (data a).

(** [a.T] *)
Definition transpose (a : ndarray) : ndarray :=
  NDArray (ncols a) (nrows a) (lmap (column a) (seq 0 (ncols a))).

(** The inner product of two sequences, summed from the left. *)
Definition inner (r c : list scalar) : scalar :=
  foldl fadd f0 (zip_with fmul r c).

(** [a.dot(b)]: raises when the inner dimensions differ. *)
Definition dot (a b : ndarray) : result ndarray :=
  if Nat.eqb (ncols a) (nrows b) then
    Ok (NDArray (nrows a) (ncols b)
          (lmap (fun r => lmap (fun j => inner r (column b j)) (seq 0 (ncols b)))
               (data a)))
  else Raise ValueError_shapes_not_aligned.

(** Broadcasting of one dimension against another. *)
Definition broadcast_dim (m n : nat) : option nat :=
  if Nat.eqb m n then Some m
  else if Nat.eqb m 1 then Some n
  else if Nat.eqb n 1 then Some m
  else None.

Definition stretch {A} (n : nat) (l : list A) : list A :=
  match l with
  | [v] => replicate n v
  | _ => l
  end.

Definition broadcast_to (r c : nat) (a : ndarray) : ndarray :=
  NDArray r c (stretch r (lmap (stretch c) (data a))).

(** [a + b] on arrays, with numpy's broadcasting. *)
Definition add (a b : ndarray) : result ndarray :=
  match broadcast_dim (nrows a) (nrows b), broadcast_dim (ncols a) (ncols b) with
  | Some r, Some c =>
      Ok (NDArray r c
            (zip_with (zip_with fadd)
               (data (broadcast_to r c a)) (data (broadcast_to r c b))))
  | _, _ => Raise ValueError_broadcast
  end.

(** [np.concatenate((a, b), axis=1)] *)
Definition concatenate_axis1 (a b : ndarray) : result ndarray :=
  if Nat.eqb (nrows a) (nrows b) then
    Ok (NDArray (nrows a) (ncols a + ncols b) (zip_with app (data a) (data b)))
  else Raise ValueError_broadcast.

(** [np.vstack((a, b))] *)
Definition vstack (a b : ndarray) : result ndarray :=
  if Nat.eqb (ncols a) (ncols b) then
    Ok (NDArray (nrows a + nrows b) (ncols a) (data a ++ data b))
  else Raise ValueError_broadcast.

(** [np.array(U[t, :], ndmin=2).T]: row [t] of [U] as a column. *)
Definition row_as_column (U : ndarray) (t : nat) : result ndarray :=
  match data U !! t with
  | Some r => Ok (NDArray (length r) 1 (lmap (fun v => [v]) r))
  | None => Raise IndexError
  end.

(** [a[:, j]] *)
Definition get_column (a : ndarray) (j : nat) : result (list scalar) :=
  if Nat.ltb j (ncols a) then Ok (column a j) else Raise IndexError.

(** [a[:, t] = v]: the value must have one element per row, or a single
    element, which is broadcast. *)
Definition set_column (a : ndarray) (t : nat) (v : list scalar) : result ndarray :=
  if Nat.ltb t (ncols a) then
    if Nat.eqb (length v) (nrows a) || Nat.eqb (length v) 1 then
      Ok (NDArray (nrows a) (ncols a)
            (zip_with (fun r e => <[t := e]> r) (data a) (stretch (nrows a) v)))
    else Raise ValueError_broadcast
  else Raise IndexError.

(** Python's slice bounds on a sequence of length [len]: a negative bound
    counts from the end, and every bound is clipped to [0 .. len]. *)
Definition slice_bound (len : nat) (i : Z) : nat :=
  if i <? 0 then Z.to_nat (Z.of_nat len + i) else Nat.min (Z.to_nat i) len.

(** [l[:stop]] and [l[start:]] *)
Definition slice_to {A} (stop : Z) (l : list A) : list A :=
  take (slice_bound (length l) stop) l.
Definition slice_from {A} (start : Z) (l : list A) : list A :=
  drop (slice_bound (length l) start) l.

(** An index into an axis of length [len]: negative indices wrap once. *)
Definition normalize_index (len : nat) (i : Z) : result nat :=
  if (0 <=? i) && (i <? Z.of_nat len) then Ok (Z.to_nat i)
  else if (- Z.of_nat len <=? i) && (i <? 0) then Ok (Z.to_nat (Z.of_nat len + i))
  else Raise IndexError.

Fixpoint take_rows (rows : list (list scalar)) (idx : list Z)
  : result (list (list scalar)) :=
  match idx with
  | [] => Ok []
  | i :: idx' =>
      n ← normalize_index (length rows) i;
      r ← match rows !! n with Some r => Ok r | None => Raise IndexError end;
      rs ← take_rows rows idx';
      Ok (r :: rs)
  end.

(** [a[idx, start:]]: the rows listed in [idx], in that order, each cut to
    the columns from [start] on. *)
Definition index_rows_slice_from (a : ndarray) (idx : list Z) (start : Z)
  : result ndarray :=
  rs ← take_rows (data a) idx;
  Ok (NDArray (length idx) (ncols a - slice_bound (ncols a) start)
        (lmap (slice_from start) rs)).

(** [np.arange(a, b)] *)
Definition arange (a b : Z) : list Z := seqZ a (b - a).

End Numpy.

(** ** The estimator object *)

Section SimpleESN.
Context `{Collaborators}.

(** The attributes of a [SimpleESN] instance.  The three weight attributes
    are [None] until a method creates them; [components_] does not exist
    before the first propagation. *)
Record SimpleESN : Type := Build_SimpleESN {
  n_readout : Z;
  n_components : Z;
  damping : scalar;
  weight_scaling : scalar;
  discard_steps : Z;
  random_state : rng;
  input_weights_ : option ndarray;
  readout_idx_ : option (list Z);
  weights_ : option ndarray;
  components_ : option ndarray
}.

Definition set_random_state (g : rng) (self : SimpleESN) : SimpleESN :=
  Build_SimpleESN (n_readout self) (n_components self) (damping self)
    (weight_scaling self) (discard_steps self) g
    (input_weights_ self) (readout_idx_ self) (weights_ self) (components_ self).
Definition set_input_weights_ (w : ndarray) (self : SimpleESN) : SimpleESN :=
  Build_SimpleESN (n_readout self) (n_components self) (damping self)
    (weight_scaling self) (discard_steps self) (random_state self)
    (Some w) (readout_idx_ self) (weights_ self) (components_ self).
Definition set_readout_idx_ (idx : list Z) (self : SimpleESN) : SimpleESN :=
  Build_SimpleESN (n_readout self) (n_components self) (damping self)
    (weight_scaling self) (discard_steps self) (random_state self)
    (input_weights_ self) (Some idx) (weights_ self) (components_ self).
Definition set_weights_ (w : ndarray) (self : SimpleESN) : SimpleESN :=
  Build_SimpleESN (n_readout self) (n_components self) (damping self)
    (weight_scaling self) (discard_steps self) (random_state self)
    (input_weights_ self) (readout_idx_ self) (Some w) (components_ self).
Definition set_components_ (c : ndarray) (self : SimpleESN) : SimpleESN :=
  Build_SimpleESN (n_readout self) (n_components self) (damping self)
    (weight_scaling self) (discard_steps self) (random_state self)
    (input_weights_ self) (readout_idx_ self) (weights_ self) (Some c).

(** A method body: it runs on the object, may mutate it, and returns a
    value or raises.  The object keeps the mutations made before a raise. *)
Definition method (A : Type) : Type := SimpleESN -> SimpleESN * result A.

#[global] Instance method_ret : MRet method := fun A a self => (self, Ok a).
#[global] Instance method_bind : MBind method := fun A B f m self =>
  match m self with
  | (self', Ok a) => f a self'
  | (self', Raise e) => (self', Raise e)
  end.

Definition get_self : method SimpleESN := fun self => (self, Ok self).
Definition assign (f : SimpleESN -> SimpleESN) : method unit :=
  fun self => (f self, Ok tt).
Definition lift {A} (r : result A) : method A := fun self => (self, r).
Definition attr {A} (f : SimpleESN -> option A) : method A :=
  fun self => (self, match f self with Some a => Ok a | None => Raise AttributeError end).

(** *** Collaborator calls *)

(** [check_random_state(seed)] for [seed : Optional[int]]. *)
Definition check_random_state (seed : option Z) : result rng :=
  match seed with
  | None => Ok global_rng
  | Some s =>
      if (0 <=? s) && (s <? 2 ^ 32) then Ok (seeded s) else Raise ValueError_seed
  end.

(** [check_array(x, ensure_2d=True)]: at least one sample and one feature,
    all values finite. *)
Definition check_array (x : ndarray) : result ndarray :=
  if wfb x && Nat.leb 1 (nrows x) && Nat.leb 1 (ncols x)
     && forallb (forallb fisfinite) (data x)
  then Ok x else Raise ValueError_check_array.

(** [c] uniform draws, then [r] rows of them: numpy fills in row-major
    order. *)
Fixpoint draw_row (g : rng) (c : nat) : rng * list scalar :=
  match c with
  | O => (g, [])
  | S c' =>
      let '(g1, v) := random_sample g in
      let '(g2, vs) := draw_row g1 c' in
      (g2, v :: vs)
  end.

Fixpoint draw_rows (g : rng) (r c : nat) : rng * list (list scalar) :=
  match r with
  | O => (g, [])
  | S r' =>
      let '(g1, row) := draw_row g c in
      let '(g2, rows) := draw_rows g1 r' c in
      (g2, row :: rows)
  end.

(** [np.zeros(shape=(r, c))] on Python integers. *)
Definition np_zeros (r c : Z) : result ndarray :=
  if (r <? 0) || (c <? 0) then Raise ValueError_negative_dimensions
  else Ok (zeros (Z.to_nat r) (Z.to_nat c)).

(** [self.random_state.rand(r, c)] *)
Definition rand (r c : Z) : method ndarray := fun self =>
  if (r <? 0) || (c <? 0) then (self, Raise ValueError_negative_dimensions)
  else
    let '(g, rows) := draw_rows (random_state self) (Z.to_nat r) (Z.to_nat c) in
    (set_random_state g self, Ok (NDArray (Z.to_nat r) (Z.to_nat c) rows)).

(** [self.random_state.permutation(l)] *)
Definition permutation (l : list Z) : method (list Z) := fun self =>
  let '(g, p) := shuffle (random_state self) l in
  (set_random_state g self, Ok p).

(** [np.max(np.abs(la.eig(a)[0]))] *)
Definition spectral_radius (a : ndarray) : result scalar :=
  if negb (Nat.eqb (nrows a) (ncols a)) then Raise ValueError_expected_square
  else if Nat.eqb (nrows a) 0 then Raise ValueError_zero_size_reduction
  else Ok (eig_max_abs (data a)).

(** *** The blocks the two methods share *)

(** Lines 112-117 and 196-200: draw the recurrent weights and rescale
    them by [weight_scaling / spectral_radius]. *)
Definition init_weights_ : method unit :=
  self ← get_self;
  w ← rand (n_components self) (n_components self);
  assign (set_weights_ (sub_scalar w f0_5));;
  w ← attr weights_;
  rho ← lift (spectral_radius w);
  self ← get_self;
  w ← attr weights_;
  assign (set_weights_ (imul_scalar w (fdiv (weight_scaling self) rho))).

(** Lines 119-121 and 203-205. *)
Definition init_input_weights_ (n_features : nat) : method unit :=
  self ← get_self;
  w ← rand (n_components self) (1 + Z.of_nat n_features);
  assign (set_input_weights_ (sub_scalar w f0_5)).

(** Lines 123-125 and 208-210. *)
Definition init_readout_idx_ (n_features : nat) : method unit :=
  self ← get_self;
  p ← permutation (arange (1 + Z.of_nat n_features)
                     (1 + Z.of_nat n_features + n_components self));
  self ← get_self;
  assign (set_readout_idx_ (slice_to (n_readout self) p)).

(** One iteration of the loop (lines 135-139 and 219-223), on the local
    [curr_] and on [self.components_]. *)
Definition step (U : ndarray) (t : nat) (curr_ : ndarray) : method ndarray :=
  u ← lift (row_as_column U t);
  self ← get_self;
  let leak := scalar_mul (fsub f1 (damping self)) curr_ in
  win ← attr input_weights_;
  a ← lift (dot win u);
  w ← attr weights_;
  b ← lift (dot w curr_);
  s ← lift (add a b);
  curr_ ← lift (add leak (scalar_mul (damping self) (tanh s)));
  v ← lift (vstack u curr_);
  c ← lift (get_column v 0);
  comps ← attr components_;
  comps ← lift (set_column comps t c);
  assign (set_components_ comps);;
  mret curr_.

Fixpoint for_range (ts : list nat) (body : nat -> ndarray -> method ndarray)
  (curr_ : ndarray) : method ndarray :=
  match ts with
  | [] => mret curr_
  | t :: ts' => curr_ ← body t curr_; for_range ts' body curr_
  end.

(** Lines 127-139 and 212-223: a fresh [components_], a zero [curr_], the
    input with a leading column of ones, and the loop over the samples. *)
Definition propagate (x : ndarray) (n_samples n_features : nat) : method unit :=
  self ← get_self;
  comps ← lift (np_zeros (1 + Z.of_nat n_features + n_components self)
                  (Z.of_nat n_samples));
  assign (set_components_ comps);;
  curr_ ← lift (np_zeros (n_components self) 1);
  U ← lift (concatenate_axis1 (ones n_samples 1) x);
  for_range (seq 0 n_samples) (step U) curr_;;
  mret tt.

(** [self.components_[self.readout_idx_, self.discard_steps:].T] *)
Definition readout : method ndarray :=
  self ← get_self;
  comps ← attr components_;
  idx ← attr readout_idx_;
  sel ← lift (index_rows_slice_from comps idx (discard_steps self));
  mret (transpose sel).

(** *** The methods *)

(** The optional arguments of the constructor; [None] stands for an
    argument left out, except in [kw_random_state], whose default is the
    value [None]. *)
Record kwargs : Type := Kwargs {
  kw_n_components : option Z;
  kw_damping : option scalar;
  kw_weight_scaling : option scalar;
  kw_discard_steps : option Z;
  kw_random_state : option Z
}.

Definition no_kwargs : kwargs := Kwargs None None None None None.

Definition __init__ (n_readout : Z) (kw : kwargs) : result SimpleESN :=
  g ← check_random_state (kw_random_state kw);
  Ok (Build_SimpleESN n_readout
        (default 100 (kw_n_components kw))
        (default f0_5 (kw_damping kw))
        (default f0_9 (kw_weight_scaling kw))
        (default 0 (kw_discard_steps kw))
        g None None None None).

Definition _fit_transform (x : ndarray) : method unit :=
  let n_samples := nrows x in
  let n_features := ncols x in
  x ← lift (check_array x);
  init_weights_;;
  init_input_weights_ n_features;;
  init_readout_idx_ n_features;;
  propagate x n_samples n_features.

Definition fit (x : ndarray) : method unit := _fit_transform x.

Definition fit_transform (x : ndarray) : method ndarray :=
  _fit_transform x;;
  readout.

Definition transform (x : ndarray) : method ndarray :=
  x ← lift (check_array x);
  let n_samples := nrows x in
  let n_features := ncols x in
  self ← get_self;
  (if weights_ self is None then init_weights_ else mret tt);;
  self ← get_self;
  (if input_weights_ self is None then init_input_weights_ n_features else mret tt);;
  self ← get_self;
  (if readout_idx_ self is None then init_readout_idx_ n_features else mret tt);;
  propagate x n_samples n_features;;
  readout.

End SimpleESN.

(** ** A reference instance on IEEE binary64 numbers

    Rocq's primitive floats are numpy's float64, so the four arithmetic
    operations below are exact.  The other collaborators are deterministic
    test doubles: a rational approximation of [tanh], a small congruential
    generator whose permutation is a rotation, and the spectral radius in
    closed form for matrices of one or two rows (the Frobenius norm beyond).
    No theorem of this file depends on what they compute. *)
Module Reference.

Definition tanh_approx (x : float) : float :=
  (if x <? -5 then -1
   else if 5 <? x then 1
   else
     let x2 := x * x in
     x * (135135 + x2 * (17325 + x2 * (378 + x2)))
     / (135135 + x2 * (62370 + x2 * (3150 + x2 * 28))))%float.

#[export] Instance float64 : Float64 := {|
  scalar := float;
  f0 := 0%float;
  f1 := 1%float;
  f0_5 := 0.5%float;
  f0_9 := 0x1.ccccccccccccdp-1%float;
  fadd := PrimFloat.add;
  fsub := PrimFloat.sub;
  fmul := PrimFloat.mul;
  fdiv := PrimFloat.div;
  ftanh := tanh_approx;
  fisfinite := PrimFloat.is_finite
|}.

(** The generator state is a residue modulo 16; a draw is the next state
    divided by 16. *)
Definition next (s : Z) : Z := (5 * s + 3) mod 16.

Definition draw (s : Z) : Z * float :=
  (next s, (PrimFloat.of_uint63 (Uint63.of_Z (next s)) / 16)%float).

Definition rotate_by {A} (k : nat) (l : list A) : list A :=
  drop (k mod length l) l ++ take (k mod length l) l.

Definition rotation (s : Z) (l : list Z) : Z * list Z :=
  (next s, rotate_by (Z.to_nat (next s)) l).

Lemma rotation_Permutation (s : Z) (l : list Z) : (rotation s l).2 ≡ₚ l.
Proof.
  unfold rotation, rotate_by; simpl.
  rewrite Permutation_app_comm. by rewrite take_drop.
Qed.

Definition frobenius (m : list (list float)) : float :=
  PrimFloat.sqrt (foldl PrimFloat.add 0%float (map (fun v => (v * v)%float) (concat m))).

Definition eig2_max_abs (m : list (list float)) : float :=
  match m with
  | [[w]] => PrimFloat.abs w
  | [[a; b]; [c; d]] =>
      (let tr := a + d in
       let det := a * d - b * c in
       let disc := tr * tr - 4 * det in
       if disc <? 0 then PrimFloat.sqrt det
       else (PrimFloat.abs tr + PrimFloat.sqrt disc) / 2)%float
  | _ => frobenius m
  end.

#[export] Instance collaborators : Collaborators := {|
  rng := Z;
  global_rng := 0;
  seeded := fun s => s mod 16;
  random_sample := draw;
  shuffle := rotation;
  shuffle_Permutation := rotation_Permutation;
  eig_max_abs := eig2_max_abs
|}.

End Reference.

(** * Properties *)

(** ** Arrays *)

Section ArrayFacts.
Context `{Float64}.

(** A sequence as a column, the way [curr_] and [u] are held. *)
Definition col_vec (v : list scalar) : ndarray :=
  NDArray (length v) 1 (lmap (fun e => [e]) v).

(** The product of a matrix, given by its rows, and a sequence. *)
Definition matvec (m : list (list scalar)) (v : list scalar) : list scalar :=
  lmap (fun r => inner r v) m.

Lemma wf_wfb (a : ndarray) : wfb a = true <-> wf a.
Proof.
  unfold wfb, wf. rewrite andb_true_iff, Nat.eqb_eq, forallb_forall, Forall_forall.
  split; intros [Hl Hr]; split; auto; intros r Hin.
  - apply Nat.eqb_eq, Hr. by apply list_elem_of_In.
  - apply Nat.eqb_eq, Hr. by apply list_elem_of_In.
Qed.

Lemma wf_zeros (r c : nat) : wf (zeros r c).
Proof.
  split; simpl; [by rewrite length_replicate|].
  apply Forall_replicate. by rewrite length_replicate.
Qed.

Lemma wf_map_array (f : scalar -> scalar) (a : ndarray) : wf a -> wf (map_array f a).
Proof.
  intros [Hl Hr]. split; simpl; [by rewrite length_fmap|].
  apply Forall_fmap. eapply Forall_impl; [exact Hr|].
  intros r Hlen; simpl. by rewrite length_fmap.
Qed.

Lemma stretch_id {A} (n : nat) (l : list A) : length l = n -> stretch n l = l.
Proof. destruct l as [|v [|w l]]; simpl; intros <-; reflexivity. Qed.

Lemma column_col_vec (v : list scalar) : column (col_vec v) 0 = v.
Proof.
  unfold column, col_vec; cbn [data]. rewrite <- list_fmap_compose.
  induction v as [|e v IH]; [reflexivity|]. rewrite fmap_cons. by rewrite IH.
Qed.

Lemma row_as_column_col_vec (U : ndarray) (t : nat) (r : list scalar) :
  data U !! t = Some r -> row_as_column U t = Ok (col_vec r).
Proof. unfold row_as_column. by intros ->. Qed.

Lemma dot_col_vec (a : ndarray) (v : list scalar) :
  length (data a) = nrows a -> ncols a = length v ->
  dot a (col_vec v) = Ok (col_vec (matvec (data a) v)).
Proof.
  intros Hl Hc. unfold dot. cbn [nrows ncols col_vec]. rewrite Hc, Nat.eqb_refl.
  change (col_vec (matvec (data a) v))
    with (NDArray (length (matvec (data a) v)) 1
            (lmap (fun e => [e]) (matvec (data a) v))).
  unfold matvec. rewrite length_fmap, Hl, <- list_fmap_compose.
  do 2 f_equal. apply list_fmap_ext. intros i r _.
  cbn [compose seq fmap list_fmap]. by rewrite (column_col_vec v).
Qed.

Lemma zip_singletons (f : scalar -> scalar -> scalar) (a b : list scalar) :
  zip_with (zip_with f) (lmap (fun e => [e]) a) (lmap (fun e => [e]) b)
  = lmap (fun e => [e]) (zip_with f a b).
Proof.
  revert b. induction a as [|x a IH]; intros [|y b]; simpl; try reflexivity.
  by rewrite IH.
Qed.

Lemma add_col_vec (a b : list scalar) :
  length a = length b ->
  add (col_vec a) (col_vec b) = Ok (col_vec (zip_with fadd a b)).
Proof.
  intros Hab. unfold add, broadcast_dim, broadcast_to; cbn [nrows ncols data col_vec].
  rewrite Hab, Nat.eqb_refl; cbn [Nat.eqb].
  assert (Hs : forall v : list scalar, length v = length b ->
            stretch (length b) (lmap (stretch 1) (lmap (fun e => [e]) v))
            = lmap (fun e => [e]) v).
  { intros v Hv. rewrite stretch_id.
    - rewrite <- list_fmap_compose. by apply list_fmap_ext.
    - by rewrite !length_fmap. }
  rewrite (Hs a Hab), (Hs b eq_refl), zip_singletons.
  unfold col_vec. rewrite length_zip_with, Hab, Nat.min_id. reflexivity.
Qed.

Lemma map_array_col_vec (f : scalar -> scalar) (v : list scalar) :
  map_array f (col_vec v) = col_vec (lmap f v).
Proof.
  unfold map_array, col_vec; cbn [nrows ncols data].
  rewrite length_fmap, <- !list_fmap_compose. reflexivity.
Qed.

Lemma vstack_col_vec (u a : list scalar) :
  vstack (col_vec u) (col_vec a) = Ok (col_vec (u ++ a)).
Proof.
  unfold vstack, col_vec; cbn [nrows ncols data Nat.eqb].
  by rewrite length_app, fmap_app.
Qed.

Lemma get_column_col_vec (v : list scalar) : get_column (col_vec v) 0 = Ok v.
Proof. unfold get_column; cbn [ncols col_vec Nat.ltb Nat.leb]. by rewrite column_col_vec. Qed.

(** Writing a column, then reading a column back. *)
Lemma column_put_eq (rows : list (list scalar)) (v : list scalar) (t c : nat) :
  Forall (fun r => length r = c) rows -> (t < c)%nat -> length v = length rows ->
  lmap (fun r => default f0 (r !! t)) (zip_with (fun r e => <[t := e]> r) rows v) = v.
Proof.
  intros Hr Ht. revert v. induction Hr as [|r rows Hlen Hr IH]; intros [|e v] Hv;
    simpl in *; try discriminate; [reflexivity|].
  rewrite list_lookup_insert_eq by lia. simpl. f_equal. apply IH. lia.
Qed.

Lemma column_put_ne (rows : list (list scalar)) (v : list scalar) (t j : nat) :
  j <> t -> length v = length rows ->
  lmap (fun r => default f0 (r !! j)) (zip_with (fun r e => <[t := e]> r) rows v)
  = lmap (fun r => default f0 (r !! j)) rows.
Proof.
  intros Hj. revert v. induction rows as [|r rows IH]; intros [|e v] Hv;
    simpl in *; try discriminate; [reflexivity|].
  rewrite list_lookup_insert_ne by auto. f_equal. apply IH. lia.
Qed.

Lemma set_column_ok (a : ndarray) (t : nat) (v : list scalar) :
  wf a -> (t < ncols a)%nat -> length v = nrows a ->
  exists a', set_column a t v = Ok a' /\ wf a' /\ shape a' = shape a
    /\ column a' t = v /\ forall j, j <> t -> column a' j = column a j.
Proof.
  intros [Hl Hr] Ht Hv. unfold set_column.
  destruct (Nat.ltb_spec t (ncols a)) as [_|]; [|lia].
  rewrite Hv, Nat.eqb_refl; simpl. rewrite stretch_id by done.
  eexists; split; [reflexivity|]. unfold wf, shape, column; simpl.
  repeat split.
  - rewrite length_zip_with. lia.
  - eapply Forall_zip_with_fst; [exact Hr|].
    apply Forall_true. intros e r Hlen. by rewrite length_insert.
  - eapply column_put_eq; eauto. lia.
  - intros j Hj. apply column_put_ne; auto. lia.
Qed.

End ArrayFacts.

(** ** The recurrence, as the specification words it *)

Section Recurrence.
Context `{Float64}.

(** [u_t]: row [t] of the input, prefixed with a constant 1. *)
Definition augmented (x : ndarray) (t : nat) : list scalar :=
  f1 :: default [] (data x !! t).

(** [(1 - damping) * a + damping * tanh(Win . u + W . a)], element-wise. *)
Definition recurrence_step (d : scalar) (Win W : list (list scalar))
  (a u : list scalar) : list scalar :=
  zip_with fadd
    (lmap (fmul (fsub f1 d)) a)
    (lmap (fmul d) (lmap ftanh (zip_with fadd (matvec Win u) (matvec W a)))).

(** [activation ... k] is [a_(k-1)]: the zero vector of length
    [n_components] before the first sample, one step of the recurrence per
    sample after it. *)
Fixpoint activation (d : scalar) (Win W : list (list scalar)) (n_components : nat)
  (x : ndarray) (k : nat) : list scalar :=
  match k with
  | O => replicate n_components f0
  | S k' =>
      recurrence_step d Win W (activation d Win W n_components x k') (augmented x k')
  end.

Lemma length_matvec (m : list (list scalar)) (v : list scalar) :
  length (matvec m v) = length m.
Proof. unfold matvec. by rewrite length_fmap. Qed.

Lemma length_recurrence_step d Win W a u :
  length Win = length a -> length W = length a ->
  length (recurrence_step d Win W a u) = length a.
Proof.
  intros HWin HW. unfold recurrence_step.
  rewrite !length_zip_with, !length_fmap, !length_zip_with, !length_matvec. lia.
Qed.

Lemma length_activation d Win W n x k :
  length Win = n -> length W = n -> length (activation d Win W n x k) = n.
Proof.
  intros HWin HW. induction k as [|k IH]; cbn [activation].
  - by rewrite length_replicate.
  - rewrite length_recurrence_step; congruence.
Qed.

End Recurrence.

(** ** The methods *)

Section MethodFacts.
Context `{Collaborators}.

(** The weights of [self] fit an input of [n_features] features. *)
Definition reservoir (self : SimpleESN) (n_features : nat) (Win W : ndarray) : Prop :=
  input_weights_ self = Some Win /\ weights_ self = Some W
  /\ 0 <= n_components self
  /\ wf Win /\ shape Win = (Z.to_nat (n_components self), S n_features)
  /\ wf W /\ shape W = (Z.to_nat (n_components self), Z.to_nat (n_components self)).

Ltac run :=
  cbv [mbind method_bind mret method_ret lift attr get_self assign].

Lemma step_run (self : SimpleESN) (nf n t : nat) (Win W U comps : ndarray)
    (a u : list scalar) :
  reservoir self nf Win W ->
  components_ self = Some comps ->
  wf comps -> shape comps = (S nf + Z.to_nat (n_components self), n)%nat ->
  (t < n)%nat ->
  data U !! t = Some u -> length u = S nf ->
  length a = Z.to_nat (n_components self) ->
  exists comps',
    step U t (col_vec a) self
    = (set_components_ comps' self,
       Ok (col_vec (recurrence_step (damping self) (data Win) (data W) a u)))
    /\ wf comps' /\ shape comps' = shape comps
    /\ column comps' t = u ++ recurrence_step (damping self) (data Win) (data W) a u
    /\ forall j, j <> t -> column comps' j = column comps j.
Proof.
  intros (HWin & HW & Hnc & [HlWin HrWin] & HsWin & [HlW HrW] & HsW) Hc Hwf Hs Ht Hu Hlu Ha.
  injection HsWin as HWin1 HWin2. injection HsW as HW1 HW2. injection Hs as Hs1 Hs2.
  assert (Hlen : length (recurrence_step (damping self) (data Win) (data W) a u)
                 = Z.to_nat (n_components self)).
  { rewrite length_recurrence_step; congruence. }
  destruct (set_column_ok comps t
              (u ++ recurrence_step (damping self) (data Win) (data W) a u))
    as (comps' & Hset & Hwf' & Hs' & Hcol & Hother); auto; try lia.
  { rewrite length_app, Hlen, Hlu. lia. }
  exists comps'. split; [|auto].
  unfold step. run.
  rewrite (row_as_column_col_vec U t u Hu), HWin, HW, Hc.
  rewrite (dot_col_vec Win u) by congruence.
  rewrite (dot_col_vec W a) by congruence.
  rewrite add_col_vec by (rewrite !length_matvec; congruence).
  unfold scalar_mul, tanh. rewrite !map_array_col_vec.
  rewrite add_col_vec.
  2:{ rewrite !length_fmap, length_zip_with, !length_matvec. lia. }
  rewrite vstack_col_vec, get_column_col_vec.
  fold (recurrence_step (damping self) (data Win) (data W) a u).
  rewrite Hset. reflexivity.
Qed.

Lemma set_components_same (self : SimpleESN) (comps : ndarray) :
  components_ self = Some comps -> set_components_ comps self = self.
Proof. destruct self; cbn. by intros ->. Qed.

Lemma reservoir_set_components_ self nf Win W comps :
  reservoir self nf Win W -> reservoir (set_components_ comps self) nf Win W.
Proof. exact id. Qed.

(** The loop from sample [s] on, entered with [curr_] holding [a_(s-1)]:
    it fills the columns [s .. s+len-1] of [components_] and leaves the
    other columns as they were. *)
Lemma for_range_run (nf n : nat) (Win W U x : ndarray) (len : nat) :
  forall (s : nat) (self : SimpleESN) (comps : ndarray),
  let nc := Z.to_nat (n_components self) in
  let act := activation (damping self) (data Win) (data W) nc x in
  reservoir self nf Win W ->
  components_ self = Some comps ->
  wf comps -> shape comps = (S nf + nc, n)%nat ->
  (s + len <= n)%nat ->
  (forall t, (t < n)%nat ->
     data U !! t = Some (augmented x t) /\ length (augmented x t) = S nf) ->
  exists comps',
    for_range (seq s len) (step U) (col_vec (act s)) self
    = (set_components_ comps' self, Ok (col_vec (act (s + len)%nat)))
    /\ wf comps' /\ shape comps' = shape comps
    /\ (forall t, (s <= t < s + len)%nat -> column comps' t = augmented x t ++ act (S t))
    /\ (forall j, ~ (s <= j < s + len)%nat -> column comps' j = column comps j).
Proof.
  induction len as [|len IH]; intros s self comps nc act Hres Hc Hwf Hs Hle HU.
  - exists comps. cbn [seq for_range]. run.
    rewrite set_components_same by done. rewrite Nat.add_0_r.
    split; [reflexivity|]. split; [exact Hwf|]. split; [reflexivity|].
    split; [|reflexivity]. intros t Ht. lia.
  - destruct (HU s) as [Hu Hlu]; [lia|].
    assert (Hres' := Hres). destruct Hres' as (_ & _ & _ & [HlWin _] & HsWin & [HlW _] & HsW).
    injection HsWin as HWin1 _. injection HsW as HW1 _.
    destruct (step_run self nf n s Win W U comps (act s) (augmented x s))
      as (c1 & Hstep & Hwf1 & Hs1 & Hcol1 & Hoth1); auto; try lia.
    { apply length_activation; congruence. }
    destruct (IH (S s) (set_components_ c1 self) c1)
      as (c2 & Hloop & Hwf2 & Hs2 & Hcol2 & Hoth2); auto; try lia.
    { rewrite Hs1. exact Hs. }
    exists c2. cbn [seq for_range]. run.
    change (activation (damping self) (data Win) (data W) nc x) with act.
    rewrite Hstep.
    change (recurrence_step (damping self) (data Win) (data W) (act s) (augmented x s))
      with (act (S s)).
    cbn [n_components damping set_components_] in Hloop.
    fold nc in Hloop. fold act in Hloop. unfold for_range in Hloop |- *.
    rewrite Hloop. replace (S s + len)%nat with (s + S len)%nat by lia.
    split; [reflexivity|]. split; [exact Hwf2|]. split; [congruence|]. split.
    + intros t Ht. destruct (decide (t = s)) as [->|Hne].
      * rewrite Hoth2 by lia. exact Hcol1.
      * apply Hcol2. lia.
    + intros j Hj. rewrite Hoth2 by lia. apply Hoth1. lia.
Qed.

Lemma np_zeros_ok (r c : Z) :
  0 <= r -> 0 <= c -> np_zeros r c = Ok (zeros (Z.to_nat r) (Z.to_nat c)).
Proof.
  intros Hr Hc. unfold np_zeros.
  destruct (Z.ltb_spec r 0); [lia|]. destruct (Z.ltb_spec c 0); [lia|]. reflexivity.
Qed.

Lemma zeros_col_vec (k : nat) : zeros k 1 = col_vec (replicate k f0).
Proof. unfold zeros, col_vec. by rewrite length_replicate, fmap_replicate. Qed.

Lemma augmented_lookup (x : ndarray) (t : nat) :
  wf x -> (t < nrows x)%nat ->
  data (NDArray (nrows x) (1 + ncols x)
          (zip_with app (data (ones (nrows x) 1)) (data x))) !! t
  = Some (augmented x t)
  /\ length (augmented x t) = S (ncols x).
Proof.
  intros [Hl Hr] Ht. cbn [data ones].
  destruct (lookup_lt_is_Some_2 (data x) t) as [r Hx]; [lia|].
  unfold augmented. rewrite lookup_zip_with, Hx.
  rewrite lookup_replicate_2 by lia. split; [reflexivity|].
  cbn. f_equal. eapply (proj1 (Forall_lookup _ _) Hr); eauto.
Qed.

(** The propagation block on an object whose weights fit the input. *)
Lemma propagate_run (self : SimpleESN) (x Win W : ndarray) :
  let nc := Z.to_nat (n_components self) in
  reservoir self (ncols x) Win W -> wf x ->
  exists comps,
    propagate x (nrows x) (ncols x) self = (set_components_ comps self, Ok tt)
    /\ wf comps /\ shape comps = (S (ncols x) + nc, nrows x)%nat
    /\ forall t, (t < nrows x)%nat ->
         column comps t
         = augmented x t
           ++ activation (damping self) (data Win) (data W) nc x (S t).
Proof.
  intros nc Hres Hx.
  assert (Hnc : 0 <= n_components self) by apply Hres.
  destruct (for_range_run (ncols x) (nrows x) Win W
              (NDArray (nrows x) (1 + ncols x)
                 (zip_with app (data (ones (nrows x) 1)) (data x)))
              x (nrows x) 0
              (set_components_ (zeros (S (ncols x) + nc) (nrows x)) self)
              (zeros (S (ncols x) + nc) (nrows x)))
    as (comps & Hloop & Hwf & Hs & Hcol & _); auto.
  { apply wf_zeros. }
  { intros t Ht. by apply augmented_lookup. }
  exists comps. split; [|split; [exact Hwf|split; [exact Hs|]]].
  - unfold propagate. run.
    rewrite np_zeros_ok by lia. rewrite np_zeros_ok by lia.
    replace (Z.to_nat (1 + Z.of_nat (ncols x) + n_components self))
      with (S (ncols x) + nc)%nat by (unfold nc; lia).
    rewrite Nat2Z.id. change (Z.to_nat 1) with 1%nat. rewrite zeros_col_vec.
    unfold concatenate_axis1. cbn [nrows ncols ones]. rewrite Nat.eqb_refl.
    cbn [n_components damping set_components_] in Hloop.
    cbn [activation] in Hloop. fold nc in Hloop.
    cbn [data ones] in Hloop |- *.
    fold nc. rewrite Hloop. reflexivity.
  - intros t Ht. apply Hcol. lia.
Qed.

(** *** Initialization *)

Lemma draw_row_length (g : rng) (c : nat) : length (draw_row g c).2 = c.
Proof.
  revert g. induction c as [|c IH]; intros g; cbn [draw_row]; [reflexivity|].
  destruct (random_sample g) as [g1 v]. specialize (IH g1).
  destruct (draw_row g1 c) as [g2 vs]. cbn in *. by rewrite IH.
Qed.

Lemma draw_rows_wf (g : rng) (r c : nat) : wf (NDArray r c (draw_rows g r c).2).
Proof.
  revert g. induction r as [|r IH]; intros g; cbn [draw_rows].
  - split; [reflexivity|constructor].
  - pose proof (draw_row_length g c) as Hrow.
    destruct (draw_row g c) as [g1 row]. specialize (IH g1).
    destruct (draw_rows g1 r c) as [g2 rows]. destruct IH as [Hl Hr].
    cbn in *. split; cbn; [by rewrite Hl|by constructor].
Qed.

(** The values the three initialization blocks produce, as functions of
    the object they run on. *)
Definition drawn_weights (self : SimpleESN) : ndarray :=
  let nc := Z.to_nat (n_components self) in
  sub_scalar (NDArray nc nc (draw_rows (random_state self) nc nc).2) f0_5.

Definition fresh_weights (self : SimpleESN) : ndarray :=
  imul_scalar (drawn_weights self)
    (fdiv (weight_scaling self) (eig_max_abs (data (drawn_weights self)))).

Definition after_init_weights (self : SimpleESN) : SimpleESN :=
  let nc := Z.to_nat (n_components self) in
  set_weights_ (fresh_weights self)
    (set_random_state (draw_rows (random_state self) nc nc).1 self).

Definition fresh_input_weights (n_features : nat) (self : SimpleESN) : ndarray :=
  let nc := Z.to_nat (n_components self) in
  sub_scalar (NDArray nc (S n_features)
                (draw_rows (random_state self) nc (S n_features)).2) f0_5.

Definition after_init_input_weights (n_features : nat) (self : SimpleESN)
  : SimpleESN :=
  let nc := Z.to_nat (n_components self) in
  set_input_weights_ (fresh_input_weights n_features self)
    (set_random_state (draw_rows (random_state self) nc (S n_features)).1 self).

(** The permutation drawn for the readout, in draw order. *)
Definition drawn_permutation (n_features : nat) (self : SimpleESN) : list Z :=
  (shuffle (random_state self)
     (seqZ (1 + Z.of_nat n_features) (n_components self))).2.

Definition fresh_readout_idx (n_features : nat) (self : SimpleESN) : list Z :=
  slice_to (n_readout self) (drawn_permutation n_features self).

Definition after_init_readout_idx (n_features : nat) (self : SimpleESN)
  : SimpleESN :=
  set_readout_idx_ (fresh_readout_idx n_features self)
    (set_random_state
       (shuffle (random_state self)
          (seqZ (1 + Z.of_nat n_features) (n_components self))).1 self).

Lemma wf_drawn_weights (self : SimpleESN) : wf (drawn_weights self).
Proof. apply wf_map_array, draw_rows_wf. Qed.

Lemma wf_fresh_weights (self : SimpleESN) : wf (fresh_weights self).
Proof. apply wf_map_array, wf_drawn_weights. Qed.

Lemma wf_fresh_input_weights (nf : nat) (self : SimpleESN) :
  wf (fresh_input_weights nf self).
Proof. apply wf_map_array, draw_rows_wf. Qed.

Lemma rand_run (r c : Z) (self : SimpleESN) :
  0 <= r -> 0 <= c ->
  rand r c self
  = (set_random_state (draw_rows (random_state self) (Z.to_nat r) (Z.to_nat c)).1 self,
     Ok (NDArray (Z.to_nat r) (Z.to_nat c)
           (draw_rows (random_state self) (Z.to_nat r) (Z.to_nat c)).2)).
Proof.
  intros Hr Hc. unfold rand.
  destruct (Z.ltb_spec r 0); [lia|]. destruct (Z.ltb_spec c 0); [lia|]. cbn [orb].
  by destruct (draw_rows _ _ _).
Qed.

Lemma init_weights_run (self : SimpleESN) :
  1 <= n_components self ->
  init_weights_ self = (after_init_weights self, Ok tt).
Proof.
  intros Hnc. unfold init_weights_. run.
  rewrite rand_run by lia. cbn [weights_ set_weights_ set_random_state].
  unfold spectral_radius. cbn [nrows ncols sub_scalar map_array].
  rewrite Nat.eqb_refl. cbn [negb].
  destruct (Nat.eqb_spec (Z.to_nat (n_components self)) 0) as [|_]; [lia|].
  reflexivity.
Qed.

Lemma init_input_weights_run (nf : nat) (self : SimpleESN) :
  0 <= n_components self ->
  init_input_weights_ nf self = (after_init_input_weights nf self, Ok tt).
Proof.
  intros Hnc. unfold init_input_weights_. run.
  rewrite rand_run by lia.
  replace (Z.to_nat (1 + Z.of_nat nf)) with (S nf) by lia. reflexivity.
Qed.

Lemma init_readout_idx_run (nf : nat) (self : SimpleESN) :
  init_readout_idx_ nf self = (after_init_readout_idx nf self, Ok tt).
Proof.
  unfold init_readout_idx_, permutation, arange. run.
  replace (1 + Z.of_nat nf + n_components self - (1 + Z.of_nat nf))
    with (n_components self) by lia.
  unfold after_init_readout_idx, fresh_readout_idx, drawn_permutation.
  by destruct (shuffle _ _).
Qed.

(** *** The readout indices *)

Lemma drawn_permutation_Permutation (nf : nat) (self : SimpleESN) :
  drawn_permutation nf self ≡ₚ seqZ (1 + Z.of_nat nf) (n_components self).
Proof. apply shuffle_Permutation. Qed.

Lemma length_drawn_permutation (nf : nat) (self : SimpleESN) :
  length (drawn_permutation nf self) = Z.to_nat (n_components self).
Proof. by rewrite drawn_permutation_Permutation, length_seqZ. Qed.

Lemma length_fresh_readout_idx (nf : nat) (self : SimpleESN) :
  length (fresh_readout_idx nf self)
  = slice_bound (Z.to_nat (n_components self)) (n_readout self).
Proof.
  unfold fresh_readout_idx, slice_to.
  rewrite length_take, length_drawn_permutation.
  unfold slice_bound. destruct (Z.ltb_spec (n_readout self) 0); lia.
Qed.

Lemma NoDup_fresh_readout_idx (nf : nat) (self : SimpleESN) :
  NoDup (fresh_readout_idx nf self).
Proof.
  unfold fresh_readout_idx, slice_to.
  eapply sublist_NoDup; [|apply sublist_take].
  rewrite drawn_permutation_Permutation. apply NoDup_seqZ.
Qed.

Lemma fresh_readout_idx_range (nf : nat) (self : SimpleESN) :
  Forall (fun i => 1 + Z.of_nat nf <= i < 1 + Z.of_nat nf + n_components self)
    (fresh_readout_idx nf self).
Proof.
  apply Forall_forall. intros i Hi.
  unfold fresh_readout_idx, slice_to in Hi.
  apply elem_of_take in Hi as (k & Hk & _).
  apply list_elem_of_lookup_2 in Hk.
  rewrite drawn_permutation_Permutation in Hk.
  by apply elem_of_seqZ in Hk.
Qed.

(** *** Readout extraction *)

Lemma take_rows_ok (rows : list (list scalar)) (idx : list Z) :
  Forall (fun i => 0 <= i < Z.of_nat (length rows)) idx ->
  take_rows rows idx = Ok (lmap (fun i => default [] (rows !! Z.to_nat i)) idx).
Proof.
  induction 1 as [|i idx Hi _ IH]; cbn [take_rows]; [reflexivity|].
  unfold normalize_index.
  destruct (Z.leb_spec 0 i); [|lia]. destruct (Z.ltb_spec i (Z.of_nat (length rows))); [|lia].
  cbn [andb mbind result_bind].
  destruct (lookup_lt_is_Some_2 rows (Z.to_nat i)) as [r Hr]; [lia|].
  rewrite Hr, IH. cbn. by rewrite Hr.
Qed.

Lemma lookups_seq {A} (d : A) (r : list A) :
  lmap (fun i => default d (r !! i)) (seq 0 (length r)) = r.
Proof.
  apply list_eq. intros i. rewrite list_lookup_fmap.
  destruct (decide (i < length r)%nat) as [Hi|Hi].
  - rewrite lookup_seq_lt by done. cbn.
    destruct (lookup_lt_is_Some_2 r i Hi) as [v Hv]. by rewrite Hv.
  - rewrite lookup_seq_ge by lia. cbn. symmetry. apply lookup_ge_None_2. lia.
Qed.

Lemma column_transpose (a : ndarray) (j : nat) (r : list scalar) :
  length r = ncols a -> data a !! j = Some r -> column (transpose a) j = r.
Proof.
  intros Hlen Hj. unfold column, transpose. cbn [data].
  rewrite <- list_fmap_compose, <- Hlen.
  transitivity (lmap (fun i => default f0 (r !! i)) (seq 0 (length r)));
    [|apply lookups_seq].
  apply list_fmap_ext. intros k i _. cbn [compose].
  unfold column. rewrite list_lookup_fmap, Hj. reflexivity.
Qed.

(** The array [readout] returns for a trace [comps] and indices [idx]. *)
Definition selected (comps : ndarray) (idx : list Z) (start : Z) : ndarray :=
  NDArray (length idx) (ncols comps - slice_bound (ncols comps) start)
    (lmap (slice_from start)
       (lmap (fun i => default [] (data comps !! Z.to_nat i)) idx)).

Lemma readout_run (self : SimpleESN) (comps : ndarray) (idx : list Z) :
  components_ self = Some comps -> readout_idx_ self = Some idx ->
  Forall (fun i => 0 <= i < Z.of_nat (length (data comps))) idx ->
  readout self = (self, Ok (transpose (selected comps idx (discard_steps self)))).
Proof.
  intros Hc Hidx Hrange. unfold readout. run. rewrite Hc, Hidx.
  unfold index_rows_slice_from. rewrite take_rows_ok by done. reflexivity.
Qed.

Lemma shape_transpose_selected (comps : ndarray) (idx : list Z) (start : Z) :
  shape (transpose (selected comps idx start))
  = ((ncols comps - slice_bound (ncols comps) start)%nat, length idx).
Proof. reflexivity. Qed.

(** Column [j] of the output is row [idx[j]] of the trace, cut to the
    columns from [start] on. *)
Lemma column_transpose_selected (comps : ndarray) (idx : list Z) (start : Z)
    (j : nat) (i : Z) (row : list scalar) :
  wf comps -> idx !! j = Some i -> data comps !! Z.to_nat i = Some row ->
  column (transpose (selected comps idx start)) j = slice_from start row.
Proof.
  intros [_ Hr] Hj Hi. apply column_transpose.
  - cbn [ncols selected]. unfold slice_from. rewrite length_drop.
    by rewrite (proj1 (Forall_lookup _ _) Hr _ _ Hi).
  - cbn [data selected]. rewrite !list_lookup_fmap, Hj. cbn. by rewrite Hi.
Qed.

(** *** [fit_transform] *)

(** The object after the three initialization blocks, run in the order of
    [_fit_transform]. *)
Definition after_init (n_features : nat) (self : SimpleESN) : SimpleESN :=
  after_init_readout_idx n_features
    (after_init_input_weights n_features (after_init_weights self)).

Lemma check_array_Ok (x x' : ndarray) :
  check_array x = Ok x' ->
  x' = x /\ wf x /\ (1 <= nrows x)%nat /\ (1 <= ncols x)%nat.
Proof.
  unfold check_array. destruct (wfb x) eqn:Hwf; [|discriminate].
  destruct (Nat.leb_spec 1 (nrows x)); [|discriminate].
  destruct (Nat.leb_spec 1 (ncols x)); [|discriminate].
  cbn [andb]. destruct (forallb _ _); [|discriminate].
  intros [= <-]. by rewrite <- wf_wfb.
Qed.

Lemma reservoir_after_init (nf : nat) (self : SimpleESN) :
  0 <= n_components self ->
  reservoir (after_init nf self) nf
    (fresh_input_weights nf (after_init_weights self)) (fresh_weights self).
Proof.
  intros Hnc. unfold reservoir. repeat split; try done.
  - apply (wf_fresh_input_weights nf (after_init_weights self)).
  - apply (wf_fresh_input_weights nf (after_init_weights self)).
  - apply wf_fresh_weights.
  - apply wf_fresh_weights.
Qed.

Lemma _fit_transform_run (x : ndarray) (self : SimpleESN) :
  let nc := Z.to_nat (n_components self) in
  check_array x = Ok x -> 1 <= n_components self ->
  exists comps,
    _fit_transform x self = (set_components_ comps (after_init (ncols x) self), Ok tt)
    /\ wf comps /\ shape comps = (S (ncols x) + nc, nrows x)%nat
    /\ forall t, (t < nrows x)%nat ->
         column comps t
         = augmented x t
           ++ activation (damping self)
                (data (fresh_input_weights (ncols x) (after_init_weights self)))
                (data (fresh_weights self)) nc x (S t).
Proof.
  intros nc Hx Hnc. destruct (check_array_Ok x x Hx) as (_ & Hwf & _ & _).
  destruct (propagate_run (after_init (ncols x) self) x
              (fresh_input_weights (ncols x) (after_init_weights self))
              (fresh_weights self))
    as (comps & Hprop & Hwfc & Hs & Hcol); auto.
  { apply reservoir_after_init. lia. }
  exists comps. split; [|auto].
  unfold _fit_transform. run. rewrite Hx.
  rewrite init_weights_run by done.
  rewrite init_input_weights_run by (cbn; lia).
  rewrite init_readout_idx_run.
  fold (after_init (ncols x) self). rewrite Hprop. reflexivity.
Qed.

Lemma fit_transform_run (x : ndarray) (self : SimpleESN) :
  let nc := Z.to_nat (n_components self) in
  let idx := fresh_readout_idx (ncols x)
               (after_init_input_weights (ncols x) (after_init_weights self)) in
  check_array x = Ok x -> 1 <= n_components self ->
  exists comps,
    fit_transform x self
    = (set_components_ comps (after_init (ncols x) self),
       Ok (transpose (selected comps idx (discard_steps self))))
    /\ wf comps /\ shape comps = (S (ncols x) + nc, nrows x)%nat
    /\ forall t, (t < nrows x)%nat ->
         column comps t
         = augmented x t
           ++ activation (damping self)
                (data (fresh_input_weights (ncols x) (after_init_weights self)))
                (data (fresh_weights self)) nc x (S t).
Proof.
  intros nc idx Hx Hnc.
  destruct (_fit_transform_run x self Hx Hnc) as (comps & Hfit & Hwf & Hs & Hcol).
  exists comps. split; [|auto].
  unfold fit_transform. run. rewrite Hfit.
  rewrite (readout_run _ comps idx); [reflexivity|reflexivity|reflexivity|].
  injection Hs as Hs1 Hs2. destruct Hwf as [Hl _]. rewrite Hl, Hs1.
  eapply Forall_impl; [apply fresh_readout_idx_range|].
  cbn. intros i Hi. fold nc. unfold nc. lia.
Qed.

(** *** What a method leaves untouched *)

(** The object without its trace: every attribute but [components_]. *)
Definition clear_components (self : SimpleESN) : SimpleESN :=
  Build_SimpleESN (n_readout self) (n_components self) (damping self)
    (weight_scaling self) (discard_steps self) (random_state self)
    (input_weights_ self) (readout_idx_ self) (weights_ self) None.

(** [m] writes no attribute but [components_]. *)
Definition frame {A} (m : method A) : Prop :=
  forall self, clear_components (m self).1 = clear_components self.

Lemma frame_ret {A} (a : A) : frame (mret a).
Proof. intros self. reflexivity. Qed.

Lemma frame_lift {A} (r : result A) : frame (lift r).
Proof. intros self. reflexivity. Qed.

Lemma frame_attr {A} (f : SimpleESN -> option A) : frame (attr f).
Proof. intros self. reflexivity. Qed.

Lemma frame_get_self : frame get_self.
Proof. intros self. reflexivity. Qed.

Lemma frame_set_components_ (c : ndarray) : frame (assign (set_components_ c)).
Proof. intros self. reflexivity. Qed.

Lemma frame_bind {A B} (m : method A) (k : A -> method B) :
  frame m -> (forall a, frame (k a)) -> frame (m ≫= k).
Proof.
  intros Hm Hk self. unfold mbind, method_bind.
  specialize (Hm self). destruct (m self) as [self' [a|e]]; cbn [fst] in *.
  - by rewrite (Hk a self').
  - exact Hm.
Qed.

Create HintDb frame.
#[local] Hint Resolve frame_ret frame_lift frame_attr frame_get_self
  frame_set_components_ : frame.
#[local] Hint Extern 2 (frame (_ ≫= _)) => apply frame_bind; [|intros ?] : frame.

Lemma frame_step (U : ndarray) (t : nat) (curr_ : ndarray) : frame (step U t curr_).
Proof. unfold step. auto 40 with frame. Qed.

Lemma frame_for_range (U : ndarray) (ts : list nat) (curr_ : ndarray) :
  frame (for_range ts (step U) curr_).
Proof.
  revert curr_. induction ts as [|t ts IH]; intros curr_; cbn [for_range].
  - apply frame_ret.
  - apply frame_bind; [apply frame_step|exact IH].
Qed.

Lemma frame_propagate (x : ndarray) (n nf : nat) : frame (propagate x n nf).
Proof.
  unfold propagate. pose proof frame_for_range. auto 40 with frame.
Qed.

Lemma frame_readout : frame readout.
Proof. unfold readout. auto 40 with frame. Qed.

(** The propagation and the readout do not read the previous trace. *)
Lemma propagate_readout_indep (x : ndarray) (n nf : nat) (self self' : SimpleESN) :
  clear_components self = clear_components self' ->
  ((propagate x n nf;; readout) self).2 = ((propagate x n nf;; readout) self').2.
Proof.
  intros Heq.
  assert (Hnc : n_components self = n_components self')
    by exact (f_equal n_components Heq).
  assert (Hset : forall c, set_components_ c self = set_components_ c self').
  { intros c. destruct self, self'. cbn in *. by injection Heq as -> -> -> -> -> -> -> -> ->. }
  unfold propagate. run. rewrite Hnc.
  destruct (np_zeros _ _) as [z|e]; [|reflexivity].
  by rewrite (Hset z).
Qed.

(** *** [transform] *)

(** The object after the three guarded initialization blocks of
    [transform]: a block runs only where its attribute is [None]. *)
Definition lazy_init (n_features : nat) (self : SimpleESN) : SimpleESN :=
  let s1 := if weights_ self is None then after_init_weights self else self in
  let s2 := if input_weights_ s1 is None
            then after_init_input_weights n_features s1 else s1 in
  if readout_idx_ s2 is None then after_init_readout_idx n_features s2 else s2.

Lemma transform_run (x : ndarray) (self : SimpleESN) :
  check_array x = Ok x -> 1 <= n_components self ->
  transform x self
  = (propagate x (nrows x) (ncols x);; readout) (lazy_init (ncols x) self).
Proof.
  intros Hx Hnc. unfold transform, lazy_init. run. rewrite Hx.
  destruct (weights_ self) as [W|] eqn:HW.
  - destruct (input_weights_ self) as [Win|] eqn:HWin.
    + destruct (readout_idx_ self) as [idx|] eqn:Hidx; [reflexivity|].
      rewrite init_readout_idx_run. reflexivity.
    + rewrite init_input_weights_run by lia.
      destruct (readout_idx_ (after_init_input_weights (ncols x) self)) as [idx|];
        [reflexivity|].
      rewrite init_readout_idx_run. reflexivity.
  - rewrite init_weights_run by done.
    destruct (input_weights_ (after_init_weights self)) as [Win|] eqn:HWin.
    + destruct (readout_idx_ (after_init_weights self)) as [idx|]; [reflexivity|].
      rewrite init_readout_idx_run. reflexivity.
    + rewrite init_input_weights_run by (cbn; lia).
      destruct (readout_idx_ (after_init_input_weights (ncols x) (after_init_weights self)))
        as [idx|]; [reflexivity|].
      rewrite init_readout_idx_run. reflexivity.
Qed.

(** On an object that holds none of the three attributes, [transform] is
    [fit_transform]. *)
Lemma transform_fresh (x : ndarray) (self : SimpleESN) :
  weights_ self = None -> input_weights_ self = None -> readout_idx_ self = None ->
  check_array x = Ok x -> 1 <= n_components self ->
  transform x self = fit_transform x self.
Proof.
  intros HW HWin Hidx Hx Hnc. rewrite transform_run by done.
  unfold lazy_init. rewrite HW.
  change (input_weights_ (after_init_weights self)) with (input_weights_ self).
  rewrite HWin.
  change (readout_idx_ (after_init_input_weights (ncols x) (after_init_weights self)))
    with (readout_idx_ self).
  rewrite Hidx. unfold fit_transform, _fit_transform. run. rewrite Hx.
  rewrite init_weights_run by done.
  rewrite init_input_weights_run by (cbn; lia).
  rewrite init_readout_idx_run. reflexivity.
Qed.

(** On an object holding the three attributes, [transform] draws nothing. *)
Lemma transform_initialized (x : ndarray) (self : SimpleESN) :
  is_Some (weights_ self) -> is_Some (input_weights_ self) ->
  is_Some (readout_idx_ self) ->
  transform x self
  = match check_array x with
    | Ok x' => (propagate x' (nrows x') (ncols x');; readout) self
    | Raise e => (self, Raise e)
    end.
Proof.
  intros [W HW] [Win HWin] [idx Hidx]. unfold transform. run.
  destruct (check_array x) as [x'|e]; [|reflexivity].
  rewrite HW, HWin, Hidx. reflexivity.
Qed.

Lemma frame_propagate_readout (x : ndarray) (n nf : nat) :
  frame (propagate x n nf;; readout).
Proof.
  apply frame_bind; [apply frame_propagate|intros _; apply frame_readout].
Qed.

(** The first iteration of the loop raises when the input weights were
    drawn for another number of features. *)
Lemma propagate_mismatch (self : SimpleESN) (x Win W : ndarray) (nf0 : nat) :
  reservoir self nf0 Win W -> wf x -> (1 <= nrows x)%nat -> ncols x <> nf0 ->
  (propagate x (nrows x) (ncols x) self).2 = Raise ValueError_shapes_not_aligned.
Proof.
  intros (HWin & HW & Hnc & _ & HsWin & _) Hwf Hn Hne.
  injection HsWin as _ HWin2.
  destruct (augmented_lookup x 0 Hwf) as [Hu Hlu]; [lia|].
  unfold propagate. run.
  rewrite np_zeros_ok by lia. rewrite np_zeros_ok by lia.
  unfold concatenate_axis1. cbn [nrows ncols ones]. rewrite Nat.eqb_refl.
  destruct (nrows x) as [|n] eqn:Hrows; [lia|].
  cbn [seq for_range]. run. unfold step at 1. run.
  rewrite (row_as_column_col_vec _ 0 _ Hu).
  cbn [input_weights_ set_components_]. rewrite HWin.
  unfold dot. cbn [nrows col_vec]. rewrite HWin2, Hlu.
  destruct (Nat.eqb_spec (S nf0) (S (ncols x))) as [Heq|_]; [lia|].
  reflexivity.
Qed.

End MethodFacts.

(** * The claims *)

Section Claims.
Context `{Collaborators}.

Lemma readout_state (self : SimpleESN) : (readout self).1 = self.
Proof.
  unfold readout. cbv [mbind method_bind mret method_ret lift attr get_self].
  destruct (components_ self); [|reflexivity].
  destruct (readout_idx_ self); [|reflexivity].
  by destruct (index_rows_slice_from _ _ _).
Qed.

Lemma frame_transform_initialized (x : ndarray) (self : SimpleESN) :
  is_Some (weights_ self) -> is_Some (input_weights_ self) ->
  is_Some (readout_idx_ self) ->
  clear_components (transform x self).1 = clear_components self.
Proof.
  intros HW HWin Hidx. rewrite transform_initialized by done.
  destruct (check_array x) as [x'|e]; [|reflexivity].
  apply frame_propagate_readout.
Qed.

(** [fit] leaves an initialized instance: weights that fit the number of
    features of its input, and readout indices. *)
Lemma fit_initializes (x : ndarray) (self : SimpleESN) :
  check_array x = Ok x -> 1 <= n_components self ->
  (fit x self).2 = Ok tt
  /\ reservoir (fit x self).1 (ncols x)
       (fresh_input_weights (ncols x) (after_init_weights self)) (fresh_weights self)
  /\ is_Some (readout_idx_ (fit x self).1).
Proof.
  intros Hx Hnc. unfold fit.
  destruct (_fit_transform_run x self Hx Hnc) as (comps & -> & _).
  split; [reflexivity|]. split; [|by eexists].
  apply reservoir_set_components_, reservoir_after_init. lia.
Qed.

(** C1. On an initialized instance and an input [x] of shape
    [(n_samples, n_features)] accepted by the validation, the propagation
    block returns, and in [transform] it leaves in [components_] a trace
    of shape
    [(1 + n_features + n_components, n_samples)] whose column [t] is
    [u_t] followed by [a_t], where [u_t] is row [t] of [x] prefixed with 1,
    [a_(-1)] is the zero vector of length [n_components] and
    [a_t = (1 - damping) * a_(t-1)
           + damping * tanh(input_weights_ . u_t + weights_ . a_(t-1))]. *)
Theorem propagation_recurrence (self : SimpleESN) (x Win W : ndarray) :
  let nc := Z.to_nat (n_components self) in
  let a := activation (damping self) (data Win) (data W) nc x in
  reservoir self (ncols x) Win W -> is_Some (readout_idx_ self) ->
  check_array x = Ok x ->
  exists comps,
    propagate x (nrows x) (ncols x) self = (set_components_ comps self, Ok tt)
    /\ components_ (transform x self).1 = Some comps
    /\ shape comps = (1 + ncols x + nc, nrows x)%nat
    /\ a 0%nat = replicate nc f0
    /\ (forall t, a (S t)
          = recurrence_step (damping self) (data Win) (data W) (a t) (augmented x t))
    /\ forall t, (t < nrows x)%nat -> column comps t = augmented x t ++ a (S t).
Proof.
  intros nc a Hres Hidx Hx.
  destruct (check_array_Ok x x Hx) as (_ & Hwf & _ & _).
  destruct (propagate_run self x Win W Hres Hwf) as (comps & Hprop & _ & Hs & Hcol).
  exists comps. split; [exact Hprop|].
  split; [|split; [exact Hs|split; [reflexivity|split; [reflexivity|exact Hcol]]]].
  destruct Hres as (HWin & HW & _).
  rewrite transform_initialized, Hx by (by rewrite ?HW, ?HWin).
  unfold mbind, method_bind. rewrite Hprop. by rewrite readout_state.
Qed.

(** C6. On an initialized instance, [transform] on a valid input whose
    number of features differs from the one the input weights were drawn
    for raises the dimension mismatch of [dot] (numpy's [ValueError] for
    shapes that are not aligned). *)
Theorem transform_feature_mismatch (self : SimpleESN) (x Win W : ndarray)
    (nf0 : nat) :
  reservoir self nf0 Win W -> is_Some (readout_idx_ self) ->
  check_array x = Ok x -> ncols x <> nf0 ->
  (transform x self).2 = Raise ValueError_shapes_not_aligned.
Proof.
  intros Hres Hidx Hx Hne.
  destruct (check_array_Ok x x Hx) as (_ & Hwf & Hn & _).
  pose proof (propagate_mismatch self x Win W nf0 Hres Hwf Hn Hne) as Hprop.
  destruct Hres as (HWin & HW & _).
  rewrite transform_initialized, Hx by (by rewrite ?HW, ?HWin).
  unfold mbind, method_bind.
  destruct (propagate x (nrows x) (ncols x) self) as [s [u|e]]; cbn in *; congruence.
Qed.

(** C8. On an initialized instance, a second [transform] of the same
    input returns what the first returned, and neither call changes
    [weights_], [input_weights_] or [readout_idx_]. *)
Theorem transform_idempotent (self : SimpleESN) (x : ndarray) :
  let s1 := (transform x self).1 in
  let s2 := (transform x s1).1 in
  is_Some (weights_ self) -> is_Some (input_weights_ self) ->
  is_Some (readout_idx_ self) ->
  (transform x s1).2 = (transform x self).2
  /\ (weights_ s1 = weights_ self /\ input_weights_ s1 = input_weights_ self
      /\ readout_idx_ s1 = readout_idx_ self)
  /\ (weights_ s2 = weights_ self /\ input_weights_ s2 = input_weights_ self
      /\ readout_idx_ s2 = readout_idx_ self).
Proof.
  intros s1 s2 HW HWin Hidx.
  pose proof (frame_transform_initialized x self HW HWin Hidx) as H1. fold s1 in H1.
  assert (E1 : weights_ s1 = weights_ self /\ input_weights_ s1 = input_weights_ self
               /\ readout_idx_ s1 = readout_idx_ self).
  { repeat split; [exact (f_equal weights_ H1)|exact (f_equal input_weights_ H1)
                  |exact (f_equal readout_idx_ H1)]. }
  destruct E1 as (E1w & E1i & E1r).
  assert (H2 : clear_components s2 = clear_components s1).
  { apply frame_transform_initialized; congruence. }
  split; [|split; [done|]].
  - rewrite !transform_initialized by congruence.
    destruct (check_array x) as [x'|e]; [|reflexivity].
    by apply propagate_readout_indep.
  - repeat split.
    + rewrite <- E1w. exact (f_equal weights_ H2).
    + rewrite <- E1i. exact (f_equal input_weights_ H2).
    + rewrite <- E1r. exact (f_equal readout_idx_ H2).
Qed.

(** The object with none of the computed attributes. *)
Definition forget (self : SimpleESN) : SimpleESN :=
  Build_SimpleESN (n_readout self) (n_components self) (damping self)
    (weight_scaling self) (discard_steps self) (random_state self)
    None None None None.

Lemma propagate_indep (x : ndarray) (n nf : nat) (self self' : SimpleESN) :
  clear_components self = clear_components self' -> 0 <= n_components self ->
  propagate x n nf self = propagate x n nf self'.
Proof.
  intros Heq Hnc.
  assert (Hnc' : n_components self = n_components self')
    by exact (f_equal n_components Heq).
  assert (Hset : forall c, set_components_ c self = set_components_ c self').
  { intros c. destruct self, self'. cbn in *. by injection Heq as -> -> -> -> -> -> -> -> ->. }
  unfold propagate. cbv [mbind method_bind mret method_ret lift attr get_self assign].
  rewrite <- Hnc'. rewrite np_zeros_ok by lia. by rewrite Hset.
Qed.

Lemma fit_transform_forget (x : ndarray) (self : SimpleESN) :
  check_array x = Ok x -> 1 <= n_components self ->
  fit_transform x self = fit_transform x (forget self).
Proof.
  intros Hx Hnc. unfold fit_transform, _fit_transform.
  cbv [mbind method_bind mret method_ret lift attr get_self assign]. rewrite Hx.
  rewrite !init_weights_run by done.
  rewrite !init_input_weights_run by (cbn; lia).
  rewrite !init_readout_idx_run.
  rewrite (propagate_indep x (nrows x) (ncols x)
             (after_init_readout_idx (ncols x)
                (after_init_input_weights (ncols x) (after_init_weights self)))
             (after_init_readout_idx (ncols x)
                (after_init_input_weights (ncols x) (after_init_weights (forget self)))));
    [reflexivity|reflexivity|cbn; lia].
Qed.

(** The weight attributes after [fit_transform]. *)
Lemma fit_transform_fields (x : ndarray) (self : SimpleESN) :
  let s1 := after_init_weights self in
  let s2 := after_init_input_weights (ncols x) s1 in
  check_array x = Ok x -> 1 <= n_components self ->
  weights_ (fit_transform x self).1 = Some (fresh_weights self)
  /\ input_weights_ (fit_transform x self).1 = Some (fresh_input_weights (ncols x) s1)
  /\ readout_idx_ (fit_transform x self).1 = Some (fresh_readout_idx (ncols x) s2).
Proof.
  intros s1 s2 Hx Hnc.
  destruct (fit_transform_run x self Hx Hnc) as (comps & -> & _). by repeat split.
Qed.

(** The weight attributes after [transform]: the one that was there, or
    else the one its initialization block draws. *)
Lemma transform_fields (x : ndarray) (self : SimpleESN) :
  let s1 := if weights_ self is None then after_init_weights self else self in
  let s2 := if input_weights_ self is None
            then after_init_input_weights (ncols x) s1 else s1 in
  check_array x = Ok x -> 1 <= n_components self ->
  weights_ (transform x self).1 = Some (default (fresh_weights self) (weights_ self))
  /\ input_weights_ (transform x self).1
     = Some (default (fresh_input_weights (ncols x) s1) (input_weights_ self))
  /\ readout_idx_ (transform x self).1
     = Some (default (fresh_readout_idx (ncols x) s2) (readout_idx_ self)).
Proof.
  intros s1 s2 Hx Hnc. rewrite transform_run by done.
  pose proof (frame_propagate_readout x (nrows x) (ncols x)
                (lazy_init (ncols x) self)) as Hfr.
  set (r := ((propagate x (nrows x) (ncols x);; readout) (lazy_init (ncols x) self)).1)
    in *.
  assert (Ew : weights_ r = weights_ (lazy_init (ncols x) self))
    by exact (f_equal weights_ Hfr).
  assert (Ei : input_weights_ r = input_weights_ (lazy_init (ncols x) self))
    by exact (f_equal input_weights_ Hfr).
  assert (Er : readout_idx_ r = readout_idx_ (lazy_init (ncols x) self))
    by exact (f_equal readout_idx_ Hfr).
  rewrite Ew, Ei, Er. clear Ew Ei Er Hfr r.
  unfold lazy_init, s2, s1.
  destruct (weights_ self) eqn:HW, (input_weights_ self) eqn:HWin,
    (readout_idx_ self) eqn:Hidx; cbn; rewrite ?HW, ?HWin, ?Hidx; cbn;
    rewrite ?HW, ?HWin, ?Hidx; by repeat split.
Qed.

(** C7. [fit_transform] draws the three weight attributes anew whatever
    the object held: its outcome is the one on the object without them, and
    the attributes it leaves are the freshly drawn ones.  [transform] keeps
    each attribute that is present and runs the initialization block of
    each one that is absent. *)
Theorem fit_transform_redraws_transform_reuses (x : ndarray) (self : SimpleESN) :
  let nf := ncols x in
  let s1 := after_init_weights self in
  let s2 := after_init_input_weights nf s1 in
  let t1 := if weights_ self is None then after_init_weights self else self in
  let t2 := if input_weights_ self is None then after_init_input_weights nf t1 else t1 in
  check_array x = Ok x -> 1 <= n_components self ->
  (fit_transform x self = fit_transform x (forget self)
   /\ weights_ (fit_transform x self).1 = Some (fresh_weights self)
   /\ input_weights_ (fit_transform x self).1 = Some (fresh_input_weights nf s1)
   /\ readout_idx_ (fit_transform x self).1 = Some (fresh_readout_idx nf s2))
  /\ (weights_ (transform x self).1
      = Some (default (fresh_weights self) (weights_ self))
      /\ input_weights_ (transform x self).1
         = Some (default (fresh_input_weights nf t1) (input_weights_ self))
      /\ readout_idx_ (transform x self).1
         = Some (default (fresh_readout_idx nf t2) (readout_idx_ self))).
Proof.
  intros nf s1 s2 t1 t2 Hx Hnc. split; [split|].
  - by apply fit_transform_forget.
  - by apply fit_transform_fields.
  - by apply transform_fields.
Qed.

(** The shape of what [fit_transform] returns, in terms of Python's slice
    bounds. *)
Lemma fit_transform_shape_slices (x : ndarray) (self : SimpleESN) :
  check_array x = Ok x -> 1 <= n_components self ->
  exists out,
    (fit_transform x self).2 = Ok out
    /\ shape out
       = ((nrows x - slice_bound (nrows x) (discard_steps self))%nat,
          slice_bound (Z.to_nat (n_components self)) (n_readout self)).
Proof.
  intros Hx Hnc.
  destruct (fit_transform_run x self Hx Hnc) as (comps & -> & _ & Hs & _).
  eexists. split; [reflexivity|].
  rewrite shape_transpose_selected, length_fresh_readout_idx.
  injection Hs as _ ->. reflexivity.
Qed.

(** C2, amended. For a valid input of shape [(n_samples, n_features)] and a
    configuration with [n_components >= 1], [0 <= n_readout <= n_components]
    and [discard_steps >= 0], [fit_transform] returns an array of shape
    [(n_samples - discard_steps, n_readout)], the first component being 0
    when [discard_steps >= n_samples]; it does not raise. *)
Theorem fit_transform_shape (x : ndarray) (self : SimpleESN) :
  check_array x = Ok x -> 1 <= n_components self ->
  0 <= n_readout self <= n_components self -> 0 <= discard_steps self ->
  exists out,
    (fit_transform x self).2 = Ok out
    /\ shape out
       = ((nrows x - Z.to_nat (discard_steps self))%nat, Z.to_nat (n_readout self))
    /\ (Z.of_nat (nrows x) <= discard_steps self ->
        shape out = (0%nat, Z.to_nat (n_readout self))).
Proof.
  intros Hx Hnc Hr Hd.
  destruct (fit_transform_shape_slices x self Hx Hnc) as (out & Hout & Hs).
  exists out. split; [exact Hout|].
  assert (Hshape : shape out
            = ((nrows x - Z.to_nat (discard_steps self))%nat, Z.to_nat (n_readout self))).
  { rewrite Hs. unfold slice_bound.
    destruct (Z.ltb_spec (discard_steps self) 0); [lia|].
    destruct (Z.ltb_spec (n_readout self) 0); [lia|]. f_equal; lia. }
  split; [exact Hshape|]. intros Hge. rewrite Hshape. f_equal. lia.
Qed.

(** C10, amended. For a configuration with
    [n_readout > n_components >= 1] and [discard_steps >= 0] and a valid
    input, [fit_transform] does not raise and returns an array with
    [n_components] columns: its shape is
    [(n_samples - discard_steps, min(n_readout, n_components))]. *)
Theorem fit_transform_truncated_readout (x : ndarray) (self : SimpleESN) :
  check_array x = Ok x -> 1 <= n_components self ->
  n_components self < n_readout self -> 0 <= discard_steps self ->
  exists out,
    (fit_transform x self).2 = Ok out
    /\ ncols out = Z.to_nat (n_components self)
    /\ shape out
       = ((nrows x - Z.to_nat (discard_steps self))%nat,
          Z.to_nat (Z.min (n_readout self) (n_components self))).
Proof.
  intros Hx Hnc Hr Hd.
  destruct (fit_transform_shape_slices x self Hx Hnc) as (out & Hout & Hs).
  exists out. split; [exact Hout|].
  assert (Hshape : shape out
            = ((nrows x - Z.to_nat (discard_steps self))%nat,
               Z.to_nat (n_components self))).
  { rewrite Hs. unfold slice_bound.
    destruct (Z.ltb_spec (discard_steps self) 0); [lia|].
    destruct (Z.ltb_spec (n_readout self) 0); [lia|]. f_equal; lia. }
  split; [exact (f_equal snd Hshape)|].
  rewrite Hshape. f_equal. lia.
Qed.

(** C3, amended. For a configuration with [n_readout > n_components >= 1]
    and a valid input, the initialization does not raise, in [fit], in
    [fit_transform] and in a first [transform] alike: the slice of the
    permutation is clipped, so [readout_idx_] is the whole permutation of
    the [n_components] reservoir indices. *)
Theorem readout_selection_clipped (x : ndarray) (self : SimpleESN) :
  let nf := ncols x in
  let perm := drawn_permutation nf (after_init_input_weights nf (after_init_weights self)) in
  check_array x = Ok x -> 1 <= n_components self ->
  n_components self < n_readout self ->
  (fit x self).2 = Ok tt
  /\ is_ok (fit_transform x self).2 = true
  /\ is_ok (transform x (forget self)).2 = true
  /\ readout_idx_ (fit x self).1 = Some perm
  /\ readout_idx_ (fit_transform x self).1 = Some perm
  /\ readout_idx_ (transform x (forget self)).1 = Some perm
  /\ length perm = Z.to_nat (n_components self).
Proof.
  intros nf perm Hx Hnc Hr.
  assert (Hlen : length perm = Z.to_nat (n_components self)).
  { unfold perm. by rewrite length_drawn_permutation. }
  assert (Hidx : fresh_readout_idx nf
                   (after_init_input_weights nf (after_init_weights self)) = perm).
  { unfold fresh_readout_idx, slice_to. apply take_ge.
    fold perm. rewrite Hlen. unfold slice_bound.
    cbn [n_readout after_init_input_weights after_init_weights set_input_weights_
      set_weights_ set_random_state].
    destruct (Z.ltb_spec (n_readout self) 0); lia. }
  assert (Htr : transform x (forget self) = fit_transform x self).
  { rewrite transform_fresh by done. symmetry. by apply fit_transform_forget. }
  rewrite Htr.
  destruct (_fit_transform_run x self Hx Hnc) as (c1 & Hfit & _).
  destruct (fit_transform_run x self Hx Hnc) as (c2 & Hft & _).
  unfold fit. rewrite Hfit, Hft. cbn [fst snd is_ok].
  repeat split; try (cbn; by rewrite <- Hidx). exact Hlen.
Qed.

(** C9. For a configuration with [1 <= n_readout <= n_components] and a
    valid input, after the initialization of [fit_transform] the attribute
    [readout_idx_] holds exactly [n_readout] pairwise distinct indices of
    [1 + n_features .. 1 + n_features + n_components - 1]: the first
    [n_readout] entries of the drawn permutation of that range, in draw
    order.  Column [j] of the output is the row of the trace that the
    [j]-th index names, from [discard_steps] on.  A first [transform]
    initializes as [fit_transform] does. *)
Theorem readout_indices (x : ndarray) (self : SimpleESN) :
  let nf := ncols x in
  let lo := 1 + Z.of_nat nf in
  let perm := drawn_permutation nf (after_init_input_weights nf (after_init_weights self)) in
  check_array x = Ok x -> 1 <= n_readout self <= n_components self ->
  exists idx comps out,
    readout_idx_ (fit_transform x self).1 = Some idx
    /\ components_ (fit_transform x self).1 = Some comps
    /\ (fit_transform x self).2 = Ok out
    /\ length idx = Z.to_nat (n_readout self)
    /\ NoDup idx
    /\ Forall (fun i => lo <= i < lo + n_components self) idx
    /\ perm ≡ₚ seqZ lo (n_components self)
    /\ idx = take (Z.to_nat (n_readout self)) perm
    /\ ncols out = Z.to_nat (n_readout self)
    /\ (forall j i, idx !! j = Some i ->
         exists row, data comps !! Z.to_nat i = Some row
           /\ column out j = slice_from (discard_steps self) row)
    /\ transform x (forget self) = fit_transform x self.
Proof.
  intros nf lo perm Hx Hr.
  assert (Hnc : 1 <= n_components self) by lia.
  assert (Htr : transform x (forget self) = fit_transform x self).
  { rewrite transform_fresh by done. symmetry. by apply fit_transform_forget. }
  rewrite Htr.
  set (s2 := after_init_input_weights nf (after_init_weights self)).
  assert (Hlen : length (fresh_readout_idx nf s2) = Z.to_nat (n_readout self)).
  { rewrite length_fresh_readout_idx. unfold slice_bound.
    change (n_readout s2) with (n_readout self).
    change (n_components s2) with (n_components self).
    destruct (Z.ltb_spec (n_readout self) 0); lia. }
  destruct (fit_transform_run x self Hx Hnc) as (comps & -> & Hwf & Hs & _).
  exists (fresh_readout_idx nf s2), comps. eexists.
  split; [reflexivity|]. split; [reflexivity|]. split; [reflexivity|].
  split; [exact Hlen|]. split; [apply (NoDup_fresh_readout_idx nf s2)|].
  split; [apply (fresh_readout_idx_range nf s2)|].
  split; [apply (drawn_permutation_Permutation nf s2)|].
  split.
  { unfold fresh_readout_idx, slice_to. f_equal.
    rewrite length_drawn_permutation. unfold slice_bound.
    change (n_readout s2) with (n_readout self).
    change (n_components s2) with (n_components self).
    destruct (Z.ltb_spec (n_readout self) 0); lia. }
  split; [exact Hlen|]. split; [|reflexivity].
  intros j i Hj.
  assert (Hi : lo <= i < lo + n_components self).
  { apply (proj1 (Forall_lookup _ _) (fresh_readout_idx_range nf s2) j i Hj). }
  injection Hs as Hs1 _. destruct Hwf as [Hl Hrows].
  destruct (lookup_lt_is_Some_2 (data comps) (Z.to_nat i)) as [row Hrow].
  { rewrite Hl, Hs1. unfold lo in Hi. lia. }
  exists row. split; [exact Hrow|].
  by apply (column_transpose_selected comps _ _ j i row).
Qed.

(** C5, amended. The initialization does not look at the value of the
    spectral radius: for [n_components >= 1] it never raises, whatever the
    radius (zero included), and every entry [w] of the drawn matrix becomes
    [w * (weight_scaling / radius)] in [weights_]. *)
Theorem weights_rescaled_unguarded (x : ndarray) (self : SimpleESN) :
  let w0 := drawn_weights self in
  let rho := eig_max_abs (data w0) in
  check_array x = Ok x -> 1 <= n_components self ->
  spectral_radius w0 = Ok rho
  /\ init_weights_ self = (after_init_weights self, Ok tt)
  /\ is_ok (fit_transform x self).2 = true
  /\ exists W,
       weights_ (after_init_weights self) = Some W
       /\ weights_ (fit_transform x self).1 = Some W
       /\ weights_ (transform x (forget self)).1 = Some W
       /\ shape W = (Z.to_nat (n_components self), Z.to_nat (n_components self))
       /\ forall i j row w,
            data w0 !! i = Some row -> row !! j = Some w ->
            exists row', data W !! i = Some row'
              /\ row' !! j = Some (fmul w (fdiv (weight_scaling self) rho)).
Proof.
  intros w0 rho Hx Hnc.
  split.
  { unfold spectral_radius, w0, drawn_weights. cbn [nrows ncols sub_scalar map_array].
    rewrite Nat.eqb_refl. cbn [negb].
    destruct (Nat.eqb_spec (Z.to_nat (n_components self)) 0) as [|_]; [lia|].
    reflexivity. }
  split; [by apply init_weights_run|].
  assert (Htr : transform x (forget self) = fit_transform x self).
  { rewrite transform_fresh by done. symmetry. by apply fit_transform_forget. }
  rewrite Htr.
  destruct (fit_transform_run x self Hx Hnc) as (comps & -> & _).
  split; [reflexivity|].
  exists (fresh_weights self). repeat split.
  intros i j row w Hrow Hw. unfold fresh_weights, imul_scalar, map_array. cbn [data].
  fold w0. fold rho. rewrite list_lookup_fmap, Hrow. cbn.
  eexists. split; [reflexivity|]. by rewrite list_lookup_fmap, Hw.
Qed.

(** C4, amended. The constructor checks no range: whatever [n_readout],
    [n_components], [damping], [weight_scaling] and [discard_steps] are,
    it succeeds when the seed is [None] or lies in [0 .. 2^32 - 1], stores
    the arguments as given and leaves the weight attributes empty, with
    the defaults [n_components=100], [damping=0.5], [weight_scaling=0.9],
    [discard_steps=0] and the seed [None] for arguments left out. *)
Theorem constructor_stores_arguments (n : Z) (kw : kwargs) :
  (forall s, kw_random_state kw = Some s -> 0 <= s < 2 ^ 32) ->
  exists g,
    check_random_state (kw_random_state kw) = Ok g
    /\ __init__ n kw
       = Ok (Build_SimpleESN n
               (default 100 (kw_n_components kw))
               (default f0_5 (kw_damping kw))
               (default f0_9 (kw_weight_scaling kw))
               (default 0 (kw_discard_steps kw))
               g None None None None)
    /\ __init__ n no_kwargs
       = Ok (Build_SimpleESN n 100 f0_5 f0_9 0 global_rng None None None None).
Proof.
  intros Hseed. unfold __init__.
  destruct (kw_random_state kw) as [s|] eqn:Hs; cbn [check_random_state].
  - specialize (Hseed s eq_refl).
    destruct (Z.leb_spec 0 s); [|lia]. destruct (Z.ltb_spec s (2 ^ 32)); [|lia].
    cbn [andb]. eexists. by repeat split.
  - eexists. by repeat split.
Qed.

End Claims.

(** * Further properties of the methods *)

Section Further.
Context `{Collaborators}.

(** [m] leaves the part [f] of the object as it was, whether it returns
    or raises. *)
Definition preserves {A B} (f : SimpleESN -> B) (m : method A) : Prop :=
  forall self, f (m self).1 = f self.

Section Closure.
Context {B : Type} (f : SimpleESN -> B).

Lemma preserves_ret {A} (a : A) : preserves f (mret a).
Proof. intros self. reflexivity. Qed.

Lemma preserves_lift {A} (r : result A) : preserves f (lift r).
Proof. intros self. reflexivity. Qed.

Lemma preserves_attr {A} (g : SimpleESN -> option A) : preserves f (attr g).
Proof. intros self. reflexivity. Qed.

Lemma preserves_get_self : preserves f get_self.
Proof. intros self. reflexivity. Qed.

Lemma preserves_assign (g : SimpleESN -> SimpleESN) :
  (forall self, f (g self) = f self) -> preserves f (assign g).
Proof. intros Hg self. apply Hg. Qed.

Lemma preserves_bind {A C} (m : method A) (k : A -> method C) :
  preserves f m -> (forall a, preserves f (k a)) -> preserves f (m ≫= k).
Proof.
  intros Hm Hk self. unfold mbind, method_bind.
  specialize (Hm self). destruct (m self) as [self' [a|e]]; cbn [fst] in *.
  - by rewrite (Hk a self').
  - exact Hm.
Qed.

(** The generator is the only attribute a draw writes. *)
Hypothesis f_random_state : forall g self, f (set_random_state g self) = f self.

Lemma preserves_rand (r c : Z) : preserves f (rand r c).
Proof.
  intros self. unfold rand. destruct ((r <? 0) || (c <? 0)); [reflexivity|].
  destruct (draw_rows _ _ _). apply f_random_state.
Qed.

Lemma preserves_permutation (l : list Z) : preserves f (permutation l).
Proof.
  intros self. unfold permutation. destruct (shuffle _ _). apply f_random_state.
Qed.

End Closure.

Lemma preserves_for_range {B} (f : SimpleESN -> B) (body : nat -> ndarray -> method ndarray)
    (ts : list nat) (curr_ : ndarray) :
  (forall t c, preserves f (body t c)) -> preserves f (for_range ts body curr_).
Proof.
  intros Hbody. revert curr_. induction ts as [|t ts IH]; intros curr_; cbn [for_range].
  - apply preserves_ret.
  - apply preserves_bind; [apply Hbody|exact IH].
Qed.

(** Goes through a method body; what is left is an assignment or a draw
    that writes the part in question. *)
Ltac preserve :=
  repeat first
    [ apply preserves_for_range; intros ? ?
    | match goal with
      | |- preserves _ (match ?o with _ => _ end) => destruct o
      end
    | apply preserves_bind; [|intros ?]
    | apply preserves_ret | apply preserves_lift | apply preserves_attr
    | apply preserves_get_self
    | apply preserves_rand; reflexivity
    | apply preserves_permutation; reflexivity
    | apply preserves_assign; reflexivity ].

(** The constructor arguments an object keeps. *)
Definition hyperparameters (self : SimpleESN) : Z * Z * scalar * scalar * Z :=
  (n_readout self, n_components self, damping self, weight_scaling self,
   discard_steps self).

(** X1. No method writes a constructor argument: after [fit],
    [fit_transform] and [transform], returning or raising, the object
    holds the [n_readout], [n_components], [damping], [weight_scaling] and
    [discard_steps] it held before. *)
Theorem methods_keep_hyperparameters (x : ndarray) (self : SimpleESN) :
  hyperparameters (fit x self).1 = hyperparameters self
  /\ hyperparameters (fit_transform x self).1 = hyperparameters self
  /\ hyperparameters (transform x self).1 = hyperparameters self.
Proof.
  assert (Hfit : preserves hyperparameters (_fit_transform x)).
  { unfold _fit_transform. preserve. }
  assert (Hft : preserves hyperparameters (fit_transform x)).
  { unfold fit_transform. preserve. }
  assert (Htr : preserves hyperparameters (transform x)).
  { unfold transform. preserve. }
  split; [apply Hfit|]. split; [apply Hft|apply Htr].
Qed.

Ltac run :=
  cbv [mbind method_bind mret method_ret lift attr get_self assign].

(** X2. On an object that holds none of the three weight attributes,
    [transform] is [fit_transform]: same result or exception, same object
    afterwards, for every input and configuration. *)
Theorem transform_unfitted (x : ndarray) (self : SimpleESN) :
  weights_ self = None -> input_weights_ self = None -> readout_idx_ self = None ->
  transform x self = fit_transform x self.
Proof.
  intros HW HWin Hidx. unfold transform, fit_transform, _fit_transform. run.
  destruct (check_array x) as [x'|e] eqn:Hx; [|reflexivity].
  destruct (check_array_Ok x x' Hx) as (-> & _). rewrite HW.
  assert (H1 : preserves input_weights_ init_weights_)
    by (unfold init_weights_; preserve).
  assert (H2 : preserves readout_idx_ init_weights_)
    by (unfold init_weights_; preserve).
  assert (H3 : preserves readout_idx_ (init_input_weights_ (ncols x)))
    by (unfold init_input_weights_; preserve).
  specialize (H1 self). specialize (H2 self).
  destruct (init_weights_ self) as [s1 [[]|e]]; cbn [fst] in *; [|reflexivity].
  rewrite H1, HWin. specialize (H3 s1).
  destruct (init_input_weights_ (ncols x) s1) as [s2 [[]|e]]; cbn [fst] in *;
    [|reflexivity].
  rewrite H3, H2, Hidx.
  destruct (init_readout_idx_ (ncols x) s2) as [s3 [[]|e]]; [|reflexivity].
  destruct (propagate x (nrows x) (ncols x) s3) as [s4 [[]|e]]; reflexivity.
Qed.

Lemma _fit_transform_propagate (x : ndarray) (self : SimpleESN) :
  check_array x = Ok x -> 1 <= n_components self ->
  _fit_transform x self = propagate x (nrows x) (ncols x) (after_init (ncols x) self).
Proof.
  intros Hx Hnc. unfold _fit_transform. run. rewrite Hx.
  rewrite init_weights_run by done.
  rewrite init_input_weights_run by (cbn; lia).
  rewrite init_readout_idx_run. reflexivity.
Qed.

(** X3. For a valid input and [n_components >= 1], [fit] followed by
    [transform] of the same input is [fit_transform]: the same array is
    returned and the same object is left. *)
Theorem fit_then_transform (x : ndarray) (self : SimpleESN) :
  check_array x = Ok x -> 1 <= n_components self ->
  (fit x self).2 = Ok tt
  /\ transform x (fit x self).1 = fit_transform x self.
Proof.
  intros Hx Hnc.
  destruct (check_array_Ok x x Hx) as (_ & Hwf & _ & _).
  destruct (propagate_run (after_init (ncols x) self) x _ _
              (reservoir_after_init (ncols x) self ltac:(lia)) Hwf)
    as (comps & Hprop & _).
  unfold fit, fit_transform. run.
  rewrite (_fit_transform_propagate x self Hx Hnc), Hprop. cbn [fst snd].
  split; [reflexivity|].
  rewrite transform_initialized by (by eexists). rewrite Hx.
  run.
  rewrite (propagate_indep x (nrows x) (ncols x)
             (set_components_ comps (after_init (ncols x) self))
             (after_init (ncols x) self)); [|reflexivity|cbn; lia].
  rewrite Hprop. reflexivity.
Qed.

(** X4. An initialized object keeps no state between calls of
    [transform]: what it returns for [x] after a [transform] of any other
    input [y] is what it returns for [x] at once, and the call on [y]
    leaves the random generator where it was. *)
Theorem transform_has_no_memory (x y : ndarray) (self : SimpleESN) :
  is_Some (weights_ self) -> is_Some (input_weights_ self) ->
  is_Some (readout_idx_ self) ->
  (transform x (transform y self).1).2 = (transform x self).2
  /\ random_state (transform y self).1 = random_state self.
Proof.
  intros HW HWin Hidx.
  pose proof (frame_transform_initialized y self HW HWin Hidx) as Hfr.
  split; [|exact (f_equal random_state Hfr)].
  set (s1 := (transform y self).1) in *.
  pose proof (f_equal weights_ Hfr) as Ew.
  pose proof (f_equal input_weights_ Hfr) as Ei.
  pose proof (f_equal readout_idx_ Hfr) as Er. cbn in Ew, Ei, Er.
  rewrite !transform_initialized by congruence.
  destruct (check_array x) as [x'|e]; [|reflexivity].
  by apply propagate_readout_indep.
Qed.

(** X5. With a negative [n_components] and a valid input, [fit] and
    [fit_transform] raise at the first draw of the generator, and so does
    [transform] when [weights_] is absent; the object is left exactly as
    it was. *)
Theorem negative_n_components_raises (x : ndarray) (self : SimpleESN) :
  check_array x = Ok x -> n_components self < 0 ->
  fit x self = (self, Raise ValueError_negative_dimensions)
  /\ fit_transform x self = (self, Raise ValueError_negative_dimensions)
  /\ (weights_ self = None ->
      transform x self = (self, Raise ValueError_negative_dimensions)).
Proof.
  intros Hx Hnc.
  assert (Hinit : init_weights_ self = (self, Raise ValueError_negative_dimensions)).
  { unfold init_weights_, rand. run.
    destruct (Z.ltb_spec (n_components self) 0); [reflexivity|lia]. }
  split; [|split].
  - unfold fit, _fit_transform. run. by rewrite Hx, Hinit.
  - unfold fit_transform, _fit_transform. run. by rewrite Hx, Hinit.
  - intros HW. unfold transform. run. by rewrite Hx, HW, Hinit.
Qed.

(** Row [i] of the array [readout] returns: the entries of trace column
    [start + i] at the readout indices, in their order. *)
Lemma row_transpose_selected (comps : ndarray) (idx : list Z) (start : Z) (i : nat) :
  let b := slice_bound (ncols comps) start in
  wf comps ->
  Forall (fun j => 0 <= j < Z.of_nat (nrows comps)) idx ->
  (i < ncols comps - b)%nat ->
  data (transpose (selected comps idx start)) !! i
  = Some (lmap (fun j => default f0 (column comps (b + i) !! Z.to_nat j)) idx).
Proof.
  intros b [Hl Hr] Hidx Hi. unfold transpose. cbn [data ncols selected].
  rewrite list_lookup_fmap, lookup_seq_lt by done. cbn [fmap option_fmap option_map].
  f_equal. unfold column at 1. cbn [data selected].
  rewrite <- !list_fmap_compose. apply Forall_fmap_ext_1.
  eapply Forall_impl; [exact Hidx|]. intros j Hj. cbn beta in Hj. cbn [compose].
  destruct (lookup_lt_is_Some_2 (data comps) (Z.to_nat j)) as [row Hrow]; [lia|].
  rewrite Hrow. cbn [default]. rewrite Nat.add_0_l.
  unfold column. rewrite list_lookup_fmap, Hrow.
  cbn [fmap option_fmap option_map default id].
  unfold slice_from. rewrite (proj1 (Forall_lookup _ _) Hr _ _ Hrow).
  fold b. by rewrite lookup_drop.
Qed.

(** X6. For a valid input and [n_components >= 1], whatever the integers
    [n_readout] and [discard_steps] are, [fit_transform] returns: the
    readout indices are pairwise distinct rows of the reservoir block
    (never the bias row or an input row), a negative [n_readout] drops
    that many permuted indices from the end, a negative [discard_steps]
    keeps that many samples from the end, and row [i] of the result holds
    the entries of trace column [start + i] at the readout indices. *)
Theorem fit_transform_slices (x : ndarray) (self : SimpleESN) :
  let nc := Z.to_nat (n_components self) in
  let start := slice_bound (nrows x) (discard_steps self) in
  check_array x = Ok x -> 1 <= n_components self ->
  exists idx comps out,
    fit_transform x self
    = (set_components_ comps (after_init (ncols x) self), Ok out)
    /\ readout_idx_ (fit_transform x self).1 = Some idx
    /\ NoDup idx
    /\ Forall (fun j => 1 + Z.of_nat (ncols x) <= j
                        < 1 + Z.of_nat (ncols x) + n_components self) idx
    /\ shape out = ((nrows x - start)%nat, length idx)
    /\ (n_readout self < 0 -> length idx = Z.to_nat (n_components self + n_readout self))
    /\ (0 <= n_readout self -> length idx = Nat.min (Z.to_nat (n_readout self)) nc)
    /\ (discard_steps self < 0 ->
        (nrows x - start)%nat = Nat.min (Z.to_nat (- discard_steps self)) (nrows x))
    /\ (0 <= discard_steps self ->
        (nrows x - start)%nat = (nrows x - Z.to_nat (discard_steps self))%nat)
    /\ forall i, (i < nrows x - start)%nat ->
         data out !! i
         = Some (lmap (fun j => default f0 (column comps (start + i) !! Z.to_nat j)) idx).
Proof.
  intros nc start Hx Hnc.
  set (s2 := after_init_input_weights (ncols x) (after_init_weights self)).
  destruct (fit_transform_run x self Hx Hnc) as (comps & Hft & Hwf & Hs & _).
  injection Hs as Hs1 Hs2.
  exists (fresh_readout_idx (ncols x) s2), comps. eexists.
  split; [exact Hft|]. rewrite Hft.
  split; [reflexivity|]. split; [apply (NoDup_fresh_readout_idx (ncols x) s2)|].
  split; [apply (fresh_readout_idx_range (ncols x) s2)|].
  split; [rewrite shape_transpose_selected, Hs2; reflexivity|].
  rewrite length_fresh_readout_idx. unfold start, slice_bound.
  change (n_readout s2) with (n_readout self).
  change (n_components s2) with (n_components self).
  split; [intros Hneg; destruct (Z.ltb_spec (n_readout self) 0); lia|].
  split; [intros Hpos; destruct (Z.ltb_spec (n_readout self) 0); lia|].
  split; [intros Hneg; destruct (Z.ltb_spec (discard_steps self) 0); lia|].
  split; [intros Hpos; destruct (Z.ltb_spec (discard_steps self) 0); lia|].
  intros i Hi. fold (slice_bound (nrows x) (discard_steps self)) in Hi |- *.
  rewrite <- Hs2 in Hi |- *.
  apply row_transpose_selected; [exact Hwf| |exact Hi].
  eapply Forall_impl; [apply (fresh_readout_idx_range (ncols x) s2)|].
  cbn. intros j Hj. rewrite Hs1. fold nc. unfold nc. lia.
Qed.

(** The activations up to sample [k] read the first [k] samples only. *)
Lemma activation_agree d Win W n (x x' : ndarray) (k : nat) :
  (forall t, (t < k)%nat -> data x !! t = data x' !! t) ->
  activation d Win W n x k = activation d Win W n x' k.
Proof.
  induction k as [|k IH]; intros Hagree; cbn [activation]; [reflexivity|].
  rewrite IH by (intros t Ht; apply Hagree; lia).
  unfold augmented. by rewrite (Hagree k) by lia.
Qed.

(** The trace and the result of [transform] on an initialized object. *)
Lemma transform_initialized_run (x Win W : ndarray) (idx : list Z) (self : SimpleESN) :
  let nc := Z.to_nat (n_components self) in
  reservoir self (ncols x) Win W -> readout_idx_ self = Some idx ->
  Forall (fun j => 0 <= j < Z.of_nat (S (ncols x) + nc)) idx ->
  check_array x = Ok x ->
  exists comps,
    transform x self
    = (set_components_ comps self,
       Ok (transpose (selected comps idx (discard_steps self))))
    /\ wf comps /\ shape comps = (S (ncols x) + nc, nrows x)%nat
    /\ forall t, (t < nrows x)%nat ->
         column comps t
         = augmented x t
           ++ activation (damping self) (data Win) (data W) nc x (S t).
Proof.
  intros nc Hres Hidx Hrange Hx.
  destruct (check_array_Ok x x Hx) as (_ & Hwf & _ & _).
  destruct (propagate_run self x Win W Hres Hwf) as (comps & Hprop & Hwfc & Hs & Hcol).
  exists comps. split; [|auto].
  destruct Hres as (HWin & HW & _).
  rewrite transform_initialized, Hx by (by rewrite ?HW, ?HWin, ?Hidx).
  run. rewrite Hprop.
  rewrite (readout_run _ comps idx); [reflexivity|reflexivity|exact Hidx|].
  destruct Hwfc as [Hl _]. injection Hs as Hs1 _. by rewrite Hl, Hs1.
Qed.

(** X7. The propagation is causal.  On an initialized object, two valid
    inputs that agree on their first [k] samples give traces that agree
    on their first [k] columns, and, for [discard_steps >= 0], results
    that agree on every row taken from those columns. *)
Theorem transform_causal (x x' Win W : ndarray) (idx : list Z) (self : SimpleESN)
    (k : nat) :
  let nc := Z.to_nat (n_components self) in
  reservoir self (ncols x) Win W -> readout_idx_ self = Some idx ->
  Forall (fun j => 0 <= j < Z.of_nat (S (ncols x) + nc)) idx ->
  check_array x = Ok x -> check_array x' = Ok x' -> ncols x' = ncols x ->
  (k <= nrows x)%nat -> (k <= nrows x')%nat ->
  (forall t, (t < k)%nat -> data x !! t = data x' !! t) ->
  exists comps comps' out out',
    components_ (transform x self).1 = Some comps
    /\ components_ (transform x' self).1 = Some comps'
    /\ (transform x self).2 = Ok out
    /\ (transform x' self).2 = Ok out'
    /\ (forall t, (t < k)%nat -> column comps t = column comps' t)
    /\ (0 <= discard_steps self ->
        forall i, (Z.to_nat (discard_steps self) + i < k)%nat ->
          data out !! i = data out' !! i /\ is_Some (data out !! i)).
Proof.
  intros nc Hres Hidx Hrange Hx Hx' Hnf Hk Hk' Hagree.
  destruct (transform_initialized_run x Win W idx self Hres Hidx Hrange Hx)
    as (comps & Htr & Hwf & Hs & Hcol).
  rewrite <- Hnf in Hres, Hrange.
  destruct (transform_initialized_run x' Win W idx self Hres Hidx Hrange Hx')
    as (comps' & Htr' & Hwf' & Hs' & Hcol').
  exists comps, comps'. do 2 eexists. rewrite Htr, Htr'.
  split; [reflexivity|]. split; [reflexivity|]. split; [reflexivity|].
  split; [reflexivity|].
  assert (Hcols : forall t, (t < k)%nat -> column comps t = column comps' t).
  { intros t Ht. rewrite Hcol, Hcol' by lia. fold nc.
    rewrite (activation_agree _ _ _ _ x x' (S t)) by (intros u Hu; apply Hagree; lia).
    unfold augmented. by rewrite (Hagree t Ht). }
  split; [exact Hcols|]. intros Hd i Hi.
  injection Hs as Hs1 Hs2. injection Hs' as Hs1' Hs2'.
  assert (Hb : slice_bound (ncols comps) (discard_steps self)
               = Z.to_nat (discard_steps self)).
  { unfold slice_bound. destruct (Z.ltb_spec (discard_steps self) 0); lia. }
  assert (Hb' : slice_bound (ncols comps') (discard_steps self)
                = Z.to_nat (discard_steps self)).
  { unfold slice_bound. destruct (Z.ltb_spec (discard_steps self) 0); lia. }
  rewrite (row_transpose_selected comps), (row_transpose_selected comps');
    try done; try (rewrite ?Hb, ?Hb'; lia).
  - rewrite Hb, Hb', Hcols by lia. split; [reflexivity|by eexists].
  - by rewrite Hs1'.
  - by rewrite Hs1, <- Hnf.
Qed.

(** X8. With [n_components = 0] and a valid input, [fit] raises only
    after it has assigned an empty matrix to [weights_]: the object is
    left half initialized.  A [transform] on that object skips the
    weights block, draws the two other attributes and returns an array
    without columns. *)
Theorem zero_n_components_half_initialized (x : ndarray) (self : SimpleESN) :
  check_array x = Ok x -> n_components self = 0 ->
  input_weights_ self = None -> readout_idx_ self = None ->
  (fit x self).2 = Raise ValueError_zero_size_reduction
  /\ weights_ (fit x self).1 = Some (NDArray 0 0 [])
  /\ input_weights_ (fit x self).1 = None
  /\ readout_idx_ (fit x self).1 = None
  /\ exists out,
       (transform x (fit x self).1).2 = Ok out
       /\ shape out
          = ((nrows x - slice_bound (nrows x) (discard_steps self))%nat, 0%nat)
       /\ readout_idx_ (transform x (fit x self).1).1 = Some [].
Proof.
  intros Hx Hnc HWin Hidx.
  destruct (check_array_Ok x x Hx) as (_ & Hwf & _ & _).
  set (s1 := set_weights_ (NDArray 0 0 []) (set_random_state (random_state self) self)).
  assert (Hfit : fit x self = (s1, Raise ValueError_zero_size_reduction)).
  { unfold fit, _fit_transform, init_weights_, rand. run. rewrite Hx, Hnc. reflexivity. }
  rewrite Hfit. cbn [fst snd].
  split; [reflexivity|]. split; [reflexivity|]. split; [exact HWin|]. split; [exact Hidx|].
  set (s2 := after_init_input_weights (ncols x) s1).
  set (s3 := after_init_readout_idx (ncols x) s2).
  assert (Hres : reservoir s3 (ncols x) (fresh_input_weights (ncols x) s1)
                   (NDArray 0 0 [])).
  { unfold reservoir. cbn [n_components s3 s2 s1 after_init_readout_idx
      after_init_input_weights set_readout_idx_ set_input_weights_ set_weights_
      set_random_state]. rewrite Hnc.
    split; [reflexivity|]. split; [reflexivity|]. split; [lia|].
    split; [apply (wf_fresh_input_weights (ncols x) s1)|].
    split; [unfold shape; cbn; by rewrite Hnc|].
    split; [split; [reflexivity|constructor]|reflexivity]. }
  destruct (propagate_run s3 x _ _ Hres Hwf) as (comps & Hprop & Hwfc & Hs & _).
  assert (Hempty : fresh_readout_idx (ncols x) s2 = []).
  { apply length_zero_iff_nil. rewrite length_fresh_readout_idx.
    change (n_components s2) with (n_components self). rewrite Hnc.
    unfold slice_bound. destruct (Z.ltb_spec (n_readout s2) 0); lia. }
  assert (Htr : transform x s1
                = (set_components_ comps s3,
                   Ok (transpose (selected comps [] (discard_steps self))))).
  { unfold transform. run. rewrite Hx. cbn [weights_ s1 set_weights_].
    change (input_weights_ s1) with (input_weights_ self).
    rewrite HWin.
    rewrite init_input_weights_run by (cbn; lia). fold s2.
    change (readout_idx_ s2) with (readout_idx_ self). rewrite Hidx.
    rewrite init_readout_idx_run. fold s3. rewrite Hprop.
    rewrite (readout_run _ comps []); [reflexivity|reflexivity| |constructor].
    cbn. by rewrite Hempty. }
  eexists. rewrite Htr. cbn [fst snd].
  split; [reflexivity|]. split.
  - rewrite shape_transpose_selected. injection Hs as _ ->. reflexivity.
  - cbn. by rewrite Hempty.
Qed.

(** X9. An input without a sample or without a feature is rejected before
    anything else happens: [fit], [fit_transform] and [transform] raise
    the validation error, draw no random number and initialize nothing,
    so the object is left exactly as it was. *)
Theorem empty_input_rejected (x : ndarray) (self : SimpleESN) :
  nrows x = 0%nat \/ ncols x = 0%nat ->
  fit x self = (self, Raise ValueError_check_array)
  /\ fit_transform x self = (self, Raise ValueError_check_array)
  /\ transform x self = (self, Raise ValueError_check_array).
Proof.
  intros Hempty.
  assert (Hx : check_array x = Raise ValueError_check_array).
  { unfold check_array. destruct (wfb x); [|reflexivity].
    destruct Hempty as [-> | ->]; [reflexivity|].
    cbn [andb]. by rewrite andb_false_r. }
  unfold fit, fit_transform, _fit_transform, transform. run. by rewrite Hx.
Qed.

End Further.

(** * The methods on concrete inputs

    Runs of the methods on the reference instance.  A generator seeded
    with [s] starts in state [s mod 16]. *)

Import Reference.

(** Two samples of one feature. *)
Definition x_2x1 : ndarray := NDArray 2 1 [[0%float]; [1%float]].

(** One sample of two features. *)
Definition x_1x2 : ndarray := NDArray 1 2 [[0%float; 1%float]].

Definition two : scalar := 2%float.

Definition new_esn (n_readout n_components discard_steps seed : Z) : SimpleESN :=
  Build_SimpleESN n_readout n_components f0_5 f0_9 discard_steps (seeded seed)
    None None None None.

Example new_esn_constructed :
  __init__ 2 (Kwargs (Some 3) None None None (Some 0)) = Ok (new_esn 2 3 0 0).
Proof. reflexivity. Qed.

(** [SimpleESN(n_readout=2, n_components=3, random_state=0)] after
    [fit] on [x_2x1]. *)
Definition fitted : SimpleESN := Eval vm_compute in (fit x_2x1 (new_esn 2 3 0 0)).1.

Example fit_then_transform_agree :
  (transform x_2x1 fitted).2 = (fit_transform x_2x1 (new_esn 2 3 0 0)).2.
Proof. vm_compute. reflexivity. Qed.

Ltac compute_wf :=
  split; [vm_compute; reflexivity | repeat constructor].

Lemma fitted_reservoir :
  reservoir fitted 1
    (default (zeros 0 0) (input_weights_ fitted))
    (default (zeros 0 0) (weights_ fitted)).
Proof.
  unfold reservoir.
  split; [reflexivity|]. split; [reflexivity|]. split; [vm_compute; discriminate|].
  split; [compute_wf|]. split; [reflexivity|]. split; [compute_wf|]. reflexivity.
Defined.

(** C1 at [fitted] and [x_2x1]: a trace of shape (5, 2). *)
Lemma propagation_recurrence_witness :
  exists comps,
    components_ (transform x_2x1 fitted).1 = Some comps
    /\ shape comps = (5, 2)%nat
    /\ column comps 0 = [1%float; 0%float] ++ drop 2 (column comps 0)
    /\ column comps 1 = [1%float; 1%float] ++ drop 2 (column comps 1).
Proof.
  destruct (propagation_recurrence fitted x_2x1 _ _ fitted_reservoir)
    as (comps & _ & Hc & Hs & _ & _ & Hcol).
  - by eexists.
  - reflexivity.
  - exists comps. split; [exact Hc|]. split; [exact Hs|].
    split; [rewrite (Hcol 0%nat) by (cbn; lia)|rewrite (Hcol 1%nat) by (cbn; lia)];
      reflexivity.
Defined.

Lemma x_2x1_valid : check_array x_2x1 = Ok x_2x1.
Proof. reflexivity. Defined.

(** C6 at [fitted], which was fitted on one feature, and an input of two
    features. *)
Lemma transform_feature_mismatch_witness :
  (transform x_1x2 fitted).2 = Raise ValueError_shapes_not_aligned.
Proof.
  apply (transform_feature_mismatch fitted x_1x2 _ _ 1%nat fitted_reservoir).
  - by eexists.
  - reflexivity.
  - cbn. lia.
Defined.

(** C8 at [fitted] and [x_2x1]. *)
Lemma transform_idempotent_witness :
  (transform x_2x1 (transform x_2x1 fitted).1).2 = (transform x_2x1 fitted).2
  /\ weights_ (transform x_2x1 fitted).1 = weights_ fitted.
Proof.
  destruct (transform_idempotent fitted x_2x1) as (Hout & (Hw & _) & _);
    [by eexists|by eexists|by eexists|].
  split; [exact Hout|exact Hw].
Defined.

(** C7 at [fitted], which holds weights, and [x_2x1]. *)
Lemma fit_transform_redraws_transform_reuses_witness :
  fit_transform x_2x1 fitted = fit_transform x_2x1 (forget fitted)
  /\ weights_ (fit_transform x_2x1 fitted).1 = Some (fresh_weights fitted)
  /\ weights_ (transform x_2x1 fitted).1 = weights_ fitted.
Proof.
  destruct (fit_transform_redraws_transform_reuses x_2x1 fitted x_2x1_valid)
    as ((Hfit & Hfw & _) & (Hw & _)); [vm_compute; discriminate|].
  split; [exact Hfit|]. split; [exact Hfw|]. rewrite Hw. reflexivity.
Defined.

(** [SimpleESN(n_readout=2, n_components=2, random_state=0)]: the readout
    indices come out as [3; 2], in draw order. *)
Lemma readout_indices_witness :
  exists idx,
    readout_idx_ (fit_transform x_2x1 (new_esn 2 2 0 0)).1 = Some idx
    /\ idx = [3; 2].
Proof.
  destruct (readout_indices x_2x1 (new_esn 2 2 0 0) x_2x1_valid)
    as (idx & comps & out & Hidx & _ & _ & _ & _ & _ & _ & Htake & _);
    [cbn; lia|].
  exists idx. split; [exact Hidx|]. rewrite Htake. vm_compute. reflexivity.
Defined.

(** [discard_steps=5] on two samples: an empty result of two columns. *)
Lemma fit_transform_shape_witness :
  exists out,
    (fit_transform x_2x1 (new_esn 2 2 5 0)).2 = Ok out /\ shape out = (0, 2)%nat.
Proof.
  destruct (fit_transform_shape x_2x1 (new_esn 2 2 5 0) x_2x1_valid)
    as (out & Hout & _ & Hempty); [cbn; lia|cbn; lia|cbn; lia|].
  exists out. split; [exact Hout|]. apply Hempty. cbn. lia.
Defined.

(** C2 as stated fails at [n_readout=2, n_components=1]: the result has
    one column, not two. *)
Lemma fit_transform_shape_counterexample :
  0 <= discard_steps (new_esn 2 1 0 7)
  /\ check_array x_2x1 = Ok x_2x1
  /\ (exists out,
        (fit_transform x_2x1 (new_esn 2 1 0 7)).2 = Ok out
        /\ shape out = (2, 1)%nat
        /\ shape out
           <> ((nrows x_2x1 - Z.to_nat (discard_steps (new_esn 2 1 0 7)))%nat,
               Z.to_nat (n_readout (new_esn 2 1 0 7))))
  /\ is_ok (fit_transform x_2x1 (new_esn 0 0 0 0)).2 = false.
Proof.
  split; [cbn; lia|]. split; [reflexivity|]. split; [|vm_compute; reflexivity].
  eexists. split; [vm_compute; reflexivity|]. split; [reflexivity|].
  vm_compute. discriminate.
Qed.

(** [n_readout=2, n_components=1]: no failure, one readout index. *)
Lemma readout_selection_clipped_witness :
  (fit x_2x1 (new_esn 2 1 0 7)).2 = Ok tt
  /\ readout_idx_ (fit x_2x1 (new_esn 2 1 0 7)).1 = Some [2].
Proof.
  destruct (readout_selection_clipped x_2x1 (new_esn 2 1 0 7) x_2x1_valid)
    as (Hfit & _ & _ & Hidx & _); [cbn; lia|cbn; lia|].
  split; [exact Hfit|]. rewrite Hidx. vm_compute. reflexivity.
Defined.

(** C3 as stated fails at [n_readout=2, n_components=1]: the three methods
    return. *)
Lemma readout_selection_counterexample :
  n_components (new_esn 2 1 0 7) < n_readout (new_esn 2 1 0 7)
  /\ (fit x_2x1 (new_esn 2 1 0 7)).2 = Ok tt
  /\ is_ok (fit_transform x_2x1 (new_esn 2 1 0 7)).2 = true
  /\ is_ok (transform x_2x1 (new_esn 2 1 0 7)).2 = true.
Proof. repeat split; vm_compute; reflexivity. Qed.

(** [n_readout=2, n_components=1]: a result of one column. *)
Lemma fit_transform_truncated_readout_witness :
  exists out,
    (fit_transform x_2x1 (new_esn 2 1 0 7)).2 = Ok out /\ shape out = (2, 1)%nat.
Proof.
  destruct (fit_transform_truncated_readout x_2x1 (new_esn 2 1 0 7) x_2x1_valid)
    as (out & Hout & _ & Hs); [cbn; lia|cbn; lia|cbn; lia|].
  exists out. split; [exact Hout|exact Hs].
Defined.

(** C10 as stated fails at [n_readout=1, n_components=-1]: drawing a
    matrix of negative dimensions raises.  It also fails at
    [discard_steps=-1], where the slice keeps the last sample only. *)
Lemma fit_transform_truncated_readout_counterexample :
  n_components (new_esn 1 (-1) 0 0) < n_readout (new_esn 1 (-1) 0 0)
  /\ check_array x_2x1 = Ok x_2x1
  /\ (fit_transform x_2x1 (new_esn 1 (-1) 0 0)).2
     = Raise ValueError_negative_dimensions
  /\ exists out,
       (fit_transform x_2x1 (new_esn 2 1 (-1) 7)).2 = Ok out
       /\ shape out = (1, 1)%nat.
Proof.
  split; [cbn; lia|]. split; [reflexivity|]. split; [vm_compute; reflexivity|].
  eexists. split; [vm_compute; reflexivity|]. reflexivity.
Qed.

(** The constructor on [n_readout=0], [n_components=-5], [damping=2.0]. *)
Lemma constructor_stores_arguments_witness :
  __init__ 0 (Kwargs (Some (-5)) (Some two) None None None)
  = Ok (Build_SimpleESN 0 (-5) two f0_9 0 global_rng None None None None).
Proof.
  destruct (constructor_stores_arguments 0
              (Kwargs (Some (-5)) (Some two) None None None))
    as (g & Hg & Hinit & _); [intros s; discriminate|].
  rewrite Hinit. injection Hg as <-. reflexivity.
Defined.

(** C4 as stated fails: the constructor accepts [n_readout=0], a damping
    of 2.0 and an [n_components] of 0 or -3. *)
Lemma constructor_counterexample :
  is_ok (__init__ 0 no_kwargs) = true
  /\ is_ok (__init__ 1 (Kwargs None (Some two) None None None)) = true
  /\ is_ok (__init__ 1 (Kwargs (Some 0) None None None None)) = true
  /\ is_ok (__init__ 1 (Kwargs (Some (-3)) None None None None)) = true.
Proof. repeat split; reflexivity. Qed.

(** The rescaling at [new_esn 2 3 0 0]. *)
Lemma weights_rescaled_unguarded_witness :
  is_ok (fit_transform x_2x1 (new_esn 2 3 0 0)).2 = true
  /\ exists W, weights_ (fit_transform x_2x1 (new_esn 2 3 0 0)).1 = Some W
       /\ shape W = (3, 3)%nat.
Proof.
  destruct (weights_rescaled_unguarded x_2x1 (new_esn 2 3 0 0) x_2x1_valid)
    as (_ & _ & Hok & W & _ & HW & _ & Hs & _); [cbn; lia|].
  split; [exact Hok|]. exists W. split; [exact HW|exact Hs].
Defined.

(** C5 as stated fails when the generator draws 0.5: the matrix of one
    row is [[0.0]], its spectral radius is zero, and [fit_transform]
    returns an array of [nan] instead of raising. *)
Lemma zero_spectral_radius_counterexample :
  drawn_weights (new_esn 1 1 0 1) = NDArray 1 1 [[0%float]]
  /\ spectral_radius (drawn_weights (new_esn 1 1 0 1)) = Ok 0%float
  /\ weights_ (fit_transform x_2x1 (new_esn 1 1 0 1)).1 = Some (NDArray 1 1 [[nan]])
  /\ (fit_transform x_2x1 (new_esn 1 1 0 1)).2 = Ok (NDArray 2 1 [[nan]; [nan]]).
Proof. repeat split; vm_compute; reflexivity. Qed.

(** ** The further properties on concrete inputs *)

Lemma transform_unfitted_witness :
  transform x_2x1 (new_esn 2 3 0 0) = fit_transform x_2x1 (new_esn 2 3 0 0).
Proof. by apply (transform_unfitted x_2x1 (new_esn 2 3 0 0)). Defined.

Lemma fit_then_transform_witness :
  transform x_2x1 (fit x_2x1 (new_esn 2 3 0 0)).1
  = fit_transform x_2x1 (new_esn 2 3 0 0).
Proof.
  apply (fit_then_transform x_2x1 (new_esn 2 3 0 0) x_2x1_valid). cbn. lia.
Defined.

(** One sample of one feature. *)
Definition x_1x1 : ndarray := NDArray 1 1 [[0%float]].

Lemma transform_has_no_memory_witness :
  (transform x_2x1 (transform x_1x2 fitted).1).2 = (transform x_2x1 fitted).2
  /\ (transform x_2x1 (transform x_1x1 fitted).1).2 = (transform x_2x1 fitted).2.
Proof.
  split.
  - apply (transform_has_no_memory x_2x1 x_1x2 fitted); by eexists.
  - apply (transform_has_no_memory x_2x1 x_1x1 fitted); by eexists.
Defined.

Lemma negative_n_components_raises_witness :
  fit x_2x1 (new_esn 1 (-1) 0 0)
  = (new_esn 1 (-1) 0 0, Raise ValueError_negative_dimensions).
Proof.
  apply (negative_n_components_raises x_2x1 (new_esn 1 (-1) 0 0) x_2x1_valid).
  cbn. lia.
Defined.

(** [n_readout=-1], [discard_steps=-1] on three neurons and two samples:
    one row, two columns. *)
Lemma fit_transform_slices_witness :
  exists out,
    (fit_transform x_2x1 (new_esn (-1) 3 (-1) 0)).2 = Ok out
    /\ shape out = (1, 2)%nat.
Proof.
  destruct (fit_transform_slices x_2x1 (new_esn (-1) 3 (-1) 0) x_2x1_valid)
    as (idx & comps & out & Hft & _ & _ & _ & Hs & Hneg & _ & Hd & _); [cbn; lia|].
  exists out. rewrite Hft. split; [reflexivity|].
  rewrite Hs, Hneg, Hd by (cbn; lia). reflexivity.
Defined.

(** The first sample of [x_2x1] alone gives the first row of the result
    on [x_2x1]. *)
Lemma transform_causal_witness :
  exists out out',
    (transform x_2x1 fitted).2 = Ok out
    /\ (transform x_1x1 fitted).2 = Ok out'
    /\ data out !! 0%nat = data out' !! 0%nat.
Proof.
  destruct (transform_causal x_2x1 x_1x1 _ _ [2; 3] fitted 1 fitted_reservoir)
    as (comps & comps' & out & out' & _ & _ & Hout & Hout' & _ & Hrow);
    try reflexivity; try (cbn; lia).
  - repeat constructor; cbn; lia.
  - intros [|t] Ht; [reflexivity|lia].
  - exists out, out'. split; [exact Hout|]. split; [exact Hout'|].
    apply Hrow; cbn; lia.
Defined.

Lemma zero_n_components_half_initialized_witness :
  (fit x_2x1 (new_esn 2 0 0 0)).2 = Raise ValueError_zero_size_reduction
  /\ exists out,
       (transform x_2x1 (fit x_2x1 (new_esn 2 0 0 0)).1).2 = Ok out
       /\ shape out = (2, 0)%nat.
Proof.
  destruct (zero_n_components_half_initialized x_2x1 (new_esn 2 0 0 0) x_2x1_valid)
    as (Hfit & _ & _ & _ & out & Hout & Hs & _); try reflexivity.
  split; [exact Hfit|]. exists out. split; [exact Hout|exact Hs].
Defined.

Lemma empty_input_rejected_witness :
  transform (NDArray 0 1 []) fitted = (fitted, Raise ValueError_check_array).
Proof.
  apply (empty_input_rejected (NDArray 0 1 []) fitted). by left.
Defined.
